(** * go-log: the global logger, its hold/flush protocol and its writers

    A shallow embedding of package [log]: the logger, the console writer and
    the buffered writer (buffer.go).

    - Go strings and byte slices are [string] (sequences of bytes).
    - [Format] is Go's [int], [Level] is Go's [int8]: both are integers in
      [Z], with the package's constants.
    - The package keeps its state in globals ([_logger], [_suppressExit])
      and in zerolog's global level; they are the fields of [World], which
      every function that touches them takes and returns.
    - Writers are pointers that the logger and its client share and that
      [SetFormatting] mutates: they live in a heap of writer objects and the
      logger holds their addresses.
    - zerolog, fmt, encoding/json and time are not part of the package: what
      the package needs from them is collected in the classes [Env],
      [Console] and [Codec].
    - For [UnmarshalLog] the decoding of encoding/json into the placeholder
      is also written out ([parse_json], [Unmarshal_RawLog]): which inputs
      decode depends on the types of the members, not only on the
      syntax. *)

From Stdlib Require Import ZArith String Ascii List Bool Lia.
From Stdlib Require Import DecimalString.
From stdpp Require Import base option list strings.
Import ListNotations.

Local Open Scope string_scope.
Local Open Scope list_scope.

(** ** Results of Go code *)

(** A Go error value, identified with the text its [Error()] returns; a
    nilable [error] is an [option error]. *)
Definition error := string.

(** A Go expression either yields a value or panics at run time. *)
Inductive outcome (A : Type) : Type :=
| Returns (a : A)
| Panics (reason : string).
Arguments Returns {A} a.
Arguments Panics {A} reason.

(** [l[i]] on an array or slice: a run-time panic outside [0, len l). *)
Definition index {A : Type} (l : list A) (i : Z) : outcome A :=
  if (i <? 0)%Z then Panics "index out of range"
  else match l !! Z.to_nat i with
       | Some x => Returns x
       | None => Panics "index out of range"
       end.

(** The [(n int, err error)] result of an [io.Writer]. *)
Definition write_result : Type := Z * option error.

(** [len(p)] *)
Definition len (p : string) : Z := Z.of_nat (String.length p).

(** ** Formats and levels *)

Definition Format := Z.

Definition Default : Format := 0%Z.
Definition Pretty : Format := 1%Z.
Definition JSON : Format := 2%Z.

Definition Level := Z.

Definition DebugLevel : Level := 0%Z.
Definition InfoLevel : Level := 1%Z.
Definition WarnLevel : Level := 2%Z.
Definition ErrorLevel : Level := 3%Z.
Definition FatalLevel : Level := 4%Z.
Definition PanicLevel : Level := 5%Z.
Definition NoLevel : Level := 6%Z.
Definition Disabled : Level := 7%Z.
Definition TraceLevel : Level := (-1)%Z.

(** [func (f Format) String() string] *)
Definition Format_String (f : Format) : outcome string :=
  if (f <? Default)%Z || (f >? JSON)%Z then Returns ""
  else index ["default"; "pretty"; "json"] f.

(** [func (f Format) MarshalText() (text []byte, err error)] *)
Definition Format_MarshalText (f : Format) : outcome (string * option error) :=
  match Format_String f with
  | Returns s => Returns (s, None)
  | Panics r => Panics r
  end.

(** ** The string functions the package calls *)

Definition newline : ascii := "010"%char.

(** [strings.HasSuffix] *)
Fixpoint HasSuffix (s suffix : string) : bool :=
  (s =? suffix) ||
  match s with
  | EmptyString => false
  | String _ r => HasSuffix r suffix
  end.

(** [strings.TrimSuffix]: [s] without the trailing [suffix], or [s] itself
    when it does not end with it. *)
Definition TrimSuffix (s suffix : string) : string :=
  if HasSuffix s suffix
  then substring 0 (String.length s - String.length suffix) s
  else s.

(** Number of copies of [c] that [s] starts with. *)
Fixpoint leading (c : ascii) (s : string) : nat :=
  match s with
  | String d r => if Ascii.eqb d c then S (leading c r) else O
  | EmptyString => O
  end.

Fixpoint skip (n : nat) (s : string) : string :=
  match n, s with
  | S n', String _ r => skip n' r
  | _, _ => s
  end.

(** [regexp.MustCompile("^\n{2,}").ReplaceAllString(input, "")]: the pattern
    is anchored at the start of the text and greedy, so its only match is
    the whole run of line feeds the text starts with, when that run has two
    or more of them. *)
Definition strip_leading_newlines (input : string) : string :=
  let n := leading newline input in
  if (2 <=? n)%nat then skip n input else input.

(** [strings.Split(s, sep)] for a separator of one byte (the package only
    splits on line feeds): the pieces between the separators, of which there
    is always at least one. *)
Fixpoint Split (s : string) (sep : ascii) : list string :=
  match s with
  | EmptyString => [EmptyString]
  | String c r =>
      if Ascii.eqb c sep then EmptyString :: Split r sep
      else match Split r sep with
           | piece :: pieces => String c piece :: pieces
           | [] => [String c EmptyString]
           end
  end.

(** [strings.Join] with a separator of one byte, the inverse of [Split]. *)
Fixpoint Join (pieces : list string) (sep : ascii) : string :=
  match pieces with
  | [] => EmptyString
  | [piece] => piece
  | piece :: rest => piece ++ String sep (Join rest sep)
  end.

(** [s] holds the byte [c]. *)
Fixpoint contains (c : ascii) (s : string) : bool :=
  match s with
  | EmptyString => false
  | String d r => Ascii.eqb d c || contains c r
  end.

(** ** What the package takes from outside *)

(** Instants, as [time.Time] values are only stored and compared. *)
Definition Time := Z.

(** Arguments of the printf-style calls. *)
Inductive Arg : Type :=
| ArgString (s : string)
| ArgInt (n : Z).

(** zerolog and fmt, as far as the logger uses them:
    - [should g l]: whether zerolog emits an event of level [l] while its
      global level is [g] (its level filter; [WithLevel] of a level it does
      not emit yields a nil event, on which [Msg] does nothing);
    - [encode l t m e]: the line zerolog hands to its writers for an event
      of level [l] stamped [t], with message [m] and error [e];
    - [Sprintf]: [fmt.Sprintf]. *)
Class Env : Type := {
  should : Level -> Level -> bool;
  encode : Level -> Time -> string -> option error -> string;
  Sprintf : string -> list Arg -> string
}.

(** [zerolog.ConsoleWriter], as configured by [newWriter] for the format
    [style] (its [FormatTimestamp] and [FormatLevel]) and [noColor]: its
    [Write] decodes the event in [p] and renders it as one line, or fails
    to decode it. *)
Class Console : Type := {
  console_render : Format -> bool -> string -> error + string
}.

(** The placeholder struct [UnmarshalLog] decodes into. *)
Record RawLog : Type := {
  raw_Level : string;
  raw_Time : string;
  raw_Message : string;
  raw_Error : string
}.

(** [json.Unmarshal] into the placeholder, [time.Parse] and
    [zerolog.ParseLevel]. *)
Class Codec : Type := {
  json_Unmarshal : string -> error + RawLog;
  time_Parse : string -> string -> error + Time;
  zerolog_ParseLevel : string -> error + Level
}.

(** ** Writers: ConsoleWriter and BufferedWriter *)

(** [type Buffer []string] *)
Definition Buffer := list string.

(** The destinations a ConsoleWriter is built on: [os.Stdout], or the
    [*Buffer] a BufferedWriter allocates for itself. The buffer is owned by
    the one ConsoleWriter that points to it, so it is kept in place. *)
Inductive Output : Type :=
| Stdout
| Mem (b : Buffer).

(** The [io.Writer] that [newWriter] returns. It writes to the [out] it was
    given, which is always the [output] field of the ConsoleWriter that
    keeps it; the model does not repeat [out] here. *)
Inductive Renderer : Type :=
| ZerologConsole (style : Format) (noColor : bool)
| Passthrough.

(** [func newWriter(format Format, noColor bool, out io.Writer) io.Writer] *)
Definition newWriter (format : Format) (noColor : bool) : Renderer :=
  if (format =? Default)%Z then ZerologConsole Default noColor
  else if (format =? Pretty)%Z then ZerologConsole Pretty noColor
  else Passthrough.

Record ConsoleWriter : Type := {
  cw_format : Format;
  cw_noColor : bool;
  output : Output;
  writer : Renderer
}.

(** [func NewConsoleWriter(format Format, noColor bool, out io.Writer)] *)
Definition NewConsoleWriter (format : Format) (noColor : bool) (out : Output)
  : ConsoleWriter :=
  {| cw_format := format; cw_noColor := noColor; output := out;
     writer := newWriter format noColor |}.

(** [func (w *ConsoleWriter) SetFormatting(f Format, noColor bool)] *)
Definition ConsoleWriter_SetFormatting (w : ConsoleWriter) (f : Format)
    (noColor : bool) : ConsoleWriter :=
  if negb (cw_format w =? f)%Z || negb (Bool.eqb (cw_noColor w) noColor)
  then {| cw_format := f; cw_noColor := noColor; output := output w;
          writer := newWriter f noColor |}
  else w.

(** [type BufferedWriter struct { writer *ConsoleWriter }]; the
    ConsoleWriter is private to the BufferedWriter that made it
    ([NewBufferedWriter], [Reset]) and is never nil there. *)
Record BufferedWriter : Type := {
  bw_writer : ConsoleWriter
}.

(** [func NewBufferedWriter(format Format, noColor bool) *BufferedWriter] *)
Definition NewBufferedWriter (format : Format) (noColor : bool)
  : BufferedWriter :=
  {| bw_writer := NewConsoleWriter format noColor (Mem []) |}.

(** [func (b *BufferedWriter) Buffer() Buffer] *)
Definition BufferedWriter_Buffer (b : BufferedWriter) : Buffer :=
  match output (bw_writer b) with
  | Mem v => v
  | Stdout => []
  end.

(** [func (b *BufferedWriter) Reset()] *)
Definition BufferedWriter_Reset (b : BufferedWriter) : BufferedWriter :=
  let format := cw_format (bw_writer b) in
  let noColor := cw_noColor (bw_writer b) in
  {| bw_writer := NewConsoleWriter format noColor (Mem []) |}.

(** [func (b *BufferedWriter) SetFormatting(format Format, noColor bool)] *)
Definition BufferedWriter_SetFormatting (b : BufferedWriter) (format : Format)
    (noColor : bool) : BufferedWriter :=
  {| bw_writer := ConsoleWriter_SetFormatting (bw_writer b) format noColor |}.

(** The implementations of interface [Writer] in the package. *)
Inductive WriterObj : Type :=
| CW (c : ConsoleWriter)
| BW (b : BufferedWriter).

(** [w.SetFormatting(format, noColor)] on a [Writer]. *)
Definition WriterObj_SetFormatting (format : Format) (noColor : bool)
    (o : WriterObj) : WriterObj :=
  match o with
  | CW c => CW (ConsoleWriter_SetFormatting c format noColor)
  | BW b => BW (BufferedWriter_SetFormatting b format noColor)
  end.

(** The format and color flag a writer renders with. *)
Definition formatting (o : WriterObj) : Format * bool :=
  match o with
  | CW c => (cw_format c, cw_noColor c)
  | BW b => (cw_format (bw_writer b), cw_noColor (bw_writer b))
  end.

(** ** The logger and the globals *)

(** [type Message struct] *)
Record Message : Type := {
  msg_Level : Level;
  msg_Time : Time;
  msg_Message : string;
  msg_Error : string;
  msg_err : option error
}.

(** Addresses of writer objects. *)
Abbreviation loc := nat.

(** [type Logger struct]. The [handler] field is the zerolog logger that
    [NewLogger] builds over [writers]; it fans every event it emits out to
    exactly these writers, in this order, and is rebuilt whenever the list
    changes, so the model reads it off [writers]. *)
Record Logger : Type := {
  format : Format;
  level : Level;
  writers : list loc;
  noColor : bool;
  buffer : list Message;
  hold : bool
}.

(** One [Write] that the handler made on a sink: which writer received the
    event, with which format and color flag it rendered it, and the event. *)
Record SinkWrite : Type := {
  sw_writer : loc;
  sw_format : Format;
  sw_noColor : bool;
  sw_level : Level;
  sw_time : Time;
  sw_message : string;
  sw_error : option error
}.

(** The state the package runs in. *)
Record World : Type := {
  _logger : Logger;                (* var _logger *)
  _suppressExit : bool;            (* var _suppressExit *)
  gLevel : Level;                  (* zerolog.GlobalLevel() *)
  heap : list WriterObj;           (* the writer objects, by address *)
  stdout : list string;            (* what was written to os.Stdout *)
  sunk : list SinkWrite;           (* the writes received by the sinks *)
  exited : option Z;               (* the code of os.Exit, once called *)
  clock : Time                     (* time.Now() *)
}.

Definition with_buffer (b : list Message) (l : Logger) : Logger :=
  {| format := format l; level := level l; writers := writers l;
     noColor := noColor l; buffer := b; hold := hold l |}.

Definition with_hold (h : bool) (l : Logger) : Logger :=
  {| format := format l; level := level l; writers := writers l;
     noColor := noColor l; buffer := buffer l; hold := h |}.

Definition with_formatting (f : Format) (nc : bool) (l : Logger) : Logger :=
  {| format := f; level := level l; writers := writers l;
     noColor := nc; buffer := buffer l; hold := hold l |}.

Definition with_logger (l : Logger) (w : World) : World :=
  {| _logger := l; _suppressExit := _suppressExit w; gLevel := gLevel w;
     heap := heap w; stdout := stdout w; sunk := sunk w; exited := exited w;
     clock := clock w |}.

Definition with_suppressExit (b : bool) (w : World) : World :=
  {| _logger := _logger w; _suppressExit := b; gLevel := gLevel w;
     heap := heap w; stdout := stdout w; sunk := sunk w; exited := exited w;
     clock := clock w |}.

Definition with_gLevel (g : Level) (w : World) : World :=
  {| _logger := _logger w; _suppressExit := _suppressExit w; gLevel := g;
     heap := heap w; stdout := stdout w; sunk := sunk w; exited := exited w;
     clock := clock w |}.

Definition with_heap (h : list WriterObj) (w : World) : World :=
  {| _logger := _logger w; _suppressExit := _suppressExit w;
     gLevel := gLevel w; heap := h; stdout := stdout w; sunk := sunk w;
     exited := exited w; clock := clock w |}.

Definition with_stdout (o : list string) (w : World) : World :=
  {| _logger := _logger w; _suppressExit := _suppressExit w;
     gLevel := gLevel w; heap := heap w; stdout := o; sunk := sunk w;
     exited := exited w; clock := clock w |}.

Definition with_sunk (s : list SinkWrite) (w : World) : World :=
  {| _logger := _logger w; _suppressExit := _suppressExit w;
     gLevel := gLevel w; heap := heap w; stdout := stdout w; sunk := s;
     exited := exited w; clock := clock w |}.

Definition with_exited (e : option Z) (w : World) : World :=
  {| _logger := _logger w; _suppressExit := _suppressExit w;
     gLevel := gLevel w; heap := heap w; stdout := stdout w; sunk := sunk w;
     exited := e; clock := clock w |}.

Definition with_clock (t : Time) (w : World) : World :=
  {| _logger := _logger w; _suppressExit := _suppressExit w;
     gLevel := gLevel w; heap := heap w; stdout := stdout w; sunk := sunk w;
     exited := exited w; clock := t |}.

(** A new object on the heap, and its address. *)
Definition alloc (o : WriterObj) (w : World) : loc * World :=
  (length (heap w), with_heap (heap w ++ [o]) w).

(** [os.Exit(code)] *)
Definition os_Exit (code : Z) (w : World) : World := with_exited (Some code) w.

(** [zerolog.SetGlobalLevel] *)
Definition zerolog_SetGlobalLevel (l : Level) (w : World) : World :=
  with_gLevel l w.

(** ** Writing to the writers *)

(** [func (b *Buffer) Write(p []byte) (n int, err error)]: the lines it
    appends to [*b]. It reads the format of the global logger. *)
Definition Buffer_Write (p : string) (b : Buffer) (w : World)
  : Buffer * write_result :=
  let input := TrimSuffix p (String newline EmptyString) in
  let input := strip_leading_newlines input in
  let lines := Split input newline in
  let b' :=
    foldl (fun (b : Buffer) (line : string) =>
             if (format (_logger w) =? Default)%Z || negb (line =? "")
             then b ++ [line] else b)
          b lines in
  (b', (len p, None)).

(** [out.Write(p)] on a destination; the standard output takes every write
    (the destinations are always writable here). *)
Definition Output_Write (out : Output) (p : string) (w : World)
  : (Output * World) * write_result :=
  match out with
  | Stdout => ((Stdout, with_stdout (stdout w ++ [p]) w), (len p, None))
  | Mem b => let '(b', r) := Buffer_Write p b w in ((Mem b', w), r)
  end.

Section Writing.
Context {C : Console}.

(** [func (w *ConsoleWriter) Write(p []byte) (n int, err error)], that is
    [w.writer.Write(p)]: the destination itself for the JSON format, and
    otherwise zerolog's console writer, which writes the line it renders to
    the destination and reports the length of [p], or fails on an event it
    cannot decode. *)
Definition ConsoleWriter_Write (c : ConsoleWriter) (p : string) (w : World)
  : (ConsoleWriter * World) * write_result :=
  let store (out : Output) : ConsoleWriter :=
    {| cw_format := cw_format c; cw_noColor := cw_noColor c; output := out;
       writer := writer c |} in
  match writer c with
  | Passthrough =>
      let '((out, w'), r) := Output_Write (output c) p w in
      ((store out, w'), r)
  | ZerologConsole style nc =>
      match console_render style nc p with
      | inl e => ((c, w), (0%Z, Some ("cannot decode event: " +:+ e)))
      | inr line =>
          let '((out, w'), (_, err)) := Output_Write (output c) line w in
          ((store out, w'), (len p, err))
      end
  end.

(** [func (b *BufferedWriter) Write(p []byte) (n int, err error)] *)
Definition BufferedWriter_Write (b : BufferedWriter) (p : string) (w : World)
  : (BufferedWriter * World) * write_result :=
  let '((c, w'), r) := ConsoleWriter_Write (bw_writer b) p w in
  (({| bw_writer := c |}, w'), r).

(** [w.Write(p)] on the [Writer] at address [a]. *)
Definition Writer_Write (a : loc) (p : string) (w : World)
  : World * write_result :=
  match heap w !! a with
  | Some (CW c) =>
      let '((c', w'), r) := ConsoleWriter_Write c p w in
      (with_heap (<[a := CW c']> (heap w')) w', r)
  | Some (BW b) =>
      let '((b', w'), r) := BufferedWriter_Write b p w in
      (with_heap (<[a := BW b']> (heap w')) w', r)
  | None => (w, (0%Z, Some "invalid writer"))
  end.

End Writing.

(** ** The logging functions, Hold and Flush *)

Section Logging.
Context {E : Env} {C : Console}.

(** The record of one write on the sink at address [a], the object [o]:
    the format and color flag it renders with, and the event. *)
Definition sink_entry (lvl : Level) (t : Time) (e : option error)
    (m : string) (a : loc) (o : WriterObj) : SinkWrite :=
  {| sw_writer := a; sw_format := fst (formatting o);
     sw_noColor := snd (formatting o); sw_level := lvl; sw_time := t;
     sw_message := m; sw_error := e |}.

(** The handler hands one event to the writer at address [a]: the writer
    receives the encoded event, and the write is recorded. *)
Definition sink_write (lvl : Level) (e : option error) (m : string)
    (w : World) (a : loc) : World :=
  match heap w !! a with
  | Some o =>
      let w' := fst (Writer_Write a (encode lvl (clock w) m e) w) in
      with_sunk (sunk w' ++ [sink_entry lvl (clock w) e m a o]) w'
  | None => w
  end.

(** [l.handler.WithLevel(zerolog.Level(lvl)).Msg(m)], with [.Err(e)] before
    [.Msg] when [e] is an error: zerolog drops the event or stamps it and
    writes it to each writer of the logger in turn. *)
Definition WithLevel_Msg (l : Logger) (lvl : Level) (e : option error)
    (m : string) (w : World) : World :=
  if should (gLevel w) lvl
  then foldl (sink_write lvl e m) w (writers l)
  else w.

(** [func log(level Level, msg string, err error, v ...interface{})]; a
    call without variadic arguments passes a nil [v], the empty list. *)
Definition log (level : Level) (msg : string) (err : option error)
    (v : list Arg) (w : World) : World :=
  let m := match v with
           | [] => msg
           | _ :: _ => Sprintf msg v
           end in
  if hold (_logger w) then
    let log := {| msg_Level := level; msg_Time := clock w; msg_Message := m;
                  msg_Error := match err with Some e => e | None => "" end;
                  msg_err := err |} in
    with_logger (with_buffer (buffer (_logger w) ++ [log]) (_logger w)) w
  else
    WithLevel_Msg (_logger w) level err m w.

(** [w.SetFormatting(format, noColor)] on the writer at address [a]. *)
Definition Writer_SetFormatting (format : Format) (noColor : bool)
    (w : World) (a : loc) : World :=
  with_heap (alter (WriterObj_SetFormatting format noColor) a (heap w)) w.

(** [func NewLogger(format Format, noColor bool, writer ...Writer) *Logger] *)
Definition NewLogger (format : Format) (noColor : bool) (writer : list loc)
    (w : World) : Logger * World :=
  let '(writers, w') :=
    match writer with
    | [] =>
        let '(a, w') :=
          alloc (CW (NewConsoleWriter format noColor Stdout)) w in
        ([a], w')
    | _ :: _ => (writer, foldl (Writer_SetFormatting format noColor) w writer)
    end in
  ({| format := format; level := 0%Z; writers := writers;
      noColor := noColor; buffer := []; hold := false |}, w').

(** [func InitLoggerWithWriter(format Format, noColor bool, writer ...Writer)] *)
Definition InitLoggerWithWriter (format : Format) (noColor : bool)
    (writer : list loc) (w : World) : World :=
  let b := buffer (_logger w) in
  let '(l, w') := NewLogger format noColor writer w in
  with_logger (with_buffer b l) w'.

(** [func InitLogger(format Format)] *)
Definition InitLogger (format : Format) (w : World) : World :=
  InitLoggerWithWriter format true [] w.

(** [func (l *Logger) Write(p []byte) (n int, err error)] *)
Definition Logger_Write (l : Logger) (p : string) (w : World)
  : World * write_result :=
  let lines := Split p newline in
  let w' :=
    foldl (fun (w : World) (line : string) =>
             if negb (line =? "") || (gLevel w =? Default)%Z
             then WithLevel_Msg l (level l) None line w
             else w)
          w lines in
  (w', (len p, None)).

(** [func getWriterIndex(w Writer) int], scanning from index [i]. *)
Fixpoint index_from (i : Z) (ws : list loc) (a : loc) : Z :=
  match ws with
  | [] => (-1)%Z
  | curr :: rest => if (a =? curr)%nat then i else index_from (i + 1)%Z rest a
  end.

Definition getWriterIndex (a : loc) (w : World) : Z :=
  index_from 0%Z (writers (_logger w)) a.

(** [func AppendWriter(w Writer)] *)
Definition AppendWriter (a : loc) (w : World) : World :=
  let writers := writers (_logger w) ++ [a] in
  InitLoggerWithWriter (format (_logger w)) (noColor (_logger w)) writers w.

(** [func RemoveWriter(w Writer)] *)
Definition RemoveWriter (a : loc) (w : World) : World :=
  let index := getWriterIndex a w in
  if (0 <=? index)%Z then
    let writers := take (Z.to_nat index) (writers (_logger w)) ++
                   drop (Z.to_nat (index + 1)) (writers (_logger w)) in
    InitLoggerWithWriter (format (_logger w)) (noColor (_logger w)) writers w
  else w.

(** [func SetFormatting(format Format, noColor bool)] *)
Definition SetFormatting (format : Format) (noColor : bool) (w : World)
  : World :=
  let w' := with_logger (with_formatting format noColor (_logger w)) w in
  foldl (Writer_SetFormatting format noColor) w' (writers (_logger w')).

(** [func SetGlobalLevel(l Level)] *)
Definition SetGlobalLevel (l : Level) (w : World) : World :=
  zerolog_SetGlobalLevel l w.

(** [func GlobalLevel() Level] *)
Definition GlobalLevel (w : World) : Level := gLevel w.

(** [func UpdateWriter(old Writer, new Writer) error] *)
Definition UpdateWriter (old new : loc) (w : World) : World * option error :=
  let index := getWriterIndex old w in
  if (index <? 0)%Z || (Z.of_nat (length (writers (_logger w))) <=? index)%Z
  then (w, Some "Cannot update logger stream, current stream not found")
  else
    let writers := <[Z.to_nat index := new]> (writers (_logger w)) in
    (InitLoggerWithWriter (format (_logger w)) (noColor (_logger w))
       writers w, None).

(** [func Bypass(msg string)]; the deferred calls run last in, first out. *)
Definition Bypass (msg : string) (w : World) : World :=
  let level := gLevel w in
  let format := format (_logger w) in
  let noColor := noColor (_logger w) in
  let w := SetFormatting Default true w in
  let w := zerolog_SetGlobalLevel InfoLevel w in
  let w := WithLevel_Msg (_logger w) InfoLevel None msg w in
  let w := SetFormatting format noColor w in
  zerolog_SetGlobalLevel level w.

(** [Debug], [DebugE], [Debugf] and their siblings at the other levels. *)
Definition Debug (msg : string) := log DebugLevel msg None [].
Definition DebugE (e : option error) (msg : string) := log DebugLevel msg e [].
Definition Debugf (format : string) (v : list Arg) :=
  log DebugLevel format None v.
Definition Info (msg : string) := log InfoLevel msg None [].
Definition InfoE (e : option error) (msg : string) := log InfoLevel msg e [].
Definition Infof (format : string) (v : list Arg) :=
  log InfoLevel format None v.
Definition Warn (msg : string) := log WarnLevel msg None [].
Definition WarnE (e : option error) (msg : string) := log WarnLevel msg e [].
Definition Warnf (format : string) (v : list Arg) :=
  log WarnLevel format None v.
Definition Error (msg : string) := log ErrorLevel msg None [].
Definition ErrorE (e : option error) (msg : string) := log ErrorLevel msg e [].
Definition Errorf (format : string) (v : list Arg) :=
  log ErrorLevel format None v.

(** [Msg], [MsgE], [Msgf]: a message at the desired level. *)
Definition Msg (level : Level) (msg : string) := log level msg None [].

(** [func Fatal(msg string)] *)
Definition Fatal (msg : string) (w : World) : World :=
  let w := WithLevel_Msg (_logger w) FatalLevel None msg w in
  if negb (_suppressExit w) then os_Exit 1 w else w.

(** [func FatalE(e error, msg string)] *)
Definition FatalE (e : option error) (msg : string) (w : World) : World :=
  let w := WithLevel_Msg (_logger w) FatalLevel e msg w in
  if negb (_suppressExit w) then os_Exit 1 w else w.

(** [func Fatalf(format string, v ...interface{})]; zerolog's [Msgf] always
    formats. *)
Definition Fatalf (format : string) (v : list Arg) (w : World) : World :=
  let w := WithLevel_Msg (_logger w) FatalLevel None (Sprintf format v) w in
  if negb (_suppressExit w) then os_Exit 1 w else w.

(** [func Hold()] *)
Definition Hold (w : World) : World :=
  with_logger (with_hold true (_logger w)) w.

(** [func Flush()] *)
Definition Flush (w : World) : World :=
  let w := with_logger (with_hold false (_logger w)) w in
  let w :=
    if (0 <? Z.of_nat (length (buffer (_logger w))))%Z then
      let w := Debugf "Flushing buffer with %d log(s)"
                 [ArgInt (Z.of_nat (length (buffer (_logger w))))] w in
      foldl (fun (w : World) (l : Message) =>
               log (msg_Level l) (msg_Message l) (msg_err l) [] w)
            w (buffer (_logger w))
    else w in
  with_logger (with_buffer [] (_logger w)) w.

End Logging.

(** ** Reading a JSON log line back *)

Section Unmarshal.
Context {E : Env} {D : Codec}.

Definition layout : string := "2006-01-02T15:04:05Z07:00".

(** [func UnmarshalLog(bytes []byte)], which returns a [*Message] and an
    [error]: the error with a
    nil message, or the message with a nil error. *)
Definition UnmarshalLog (bytes : string) : error + Message :=
  match json_Unmarshal bytes with
  | inl err => inl err
  | inr raw =>
      match time_Parse layout (raw_Time raw) with
      | inl _ =>
          inl (Sprintf "Cannot parse datetime format, got %s, want %s"
                 [ArgString (raw_Time raw); ArgString layout])
      | inr timestamp =>
          match zerolog_ParseLevel (raw_Level raw) with
          | inl _ =>
              inl (Sprintf "Cannot parse level: %s"
                     [ArgString (raw_Level raw)])
          | inr level =>
              inr {| msg_Level := level; msg_Time := timestamp;
                     msg_Message := raw_Message raw;
                     msg_Error := raw_Error raw; msg_err := None |}
          end
      end
  end.

End Unmarshal.

(** ** Programs over the package *)

Section Programs.
Context {E : Env} {C : Console}.

(** What a client of the package can do, one call at a time. *)
Inductive Op : Type :=
| OpHold
| OpFlush
| OpLog (level : Level) (msg : string) (err : option error) (v : list Arg)
| OpFatal (msg : string)
| OpFatalE (e : option error) (msg : string)
| OpFatalf (format : string) (v : list Arg)
| OpBypass (msg : string)
| OpInitLogger (format : Format)
| OpInitLoggerWithWriter (format : Format) (noColor : bool)
    (writer : list loc)
| OpSetFormatting (format : Format) (noColor : bool)
| OpSetGlobalLevel (l : Level)
| OpAppendWriter (a : loc)
| OpRemoveWriter (a : loc)
| OpUpdateWriter (old new : loc)
| OpNewConsoleWriter (format : Format) (noColor : bool)
| OpNewBufferedWriter (format : Format) (noColor : bool)
| OpSuppressExit (b : bool)
| OpTick (t : Time).

Definition step (op : Op) (w : World) : World :=
  match op with
  | OpHold => Hold w
  | OpFlush => Flush w
  | OpLog level msg err v => log level msg err v w
  | OpFatal msg => Fatal msg w
  | OpFatalE e msg => FatalE e msg w
  | OpFatalf format v => Fatalf format v w
  | OpBypass msg => Bypass msg w
  | OpInitLogger format => InitLogger format w
  | OpInitLoggerWithWriter format noColor writer =>
      InitLoggerWithWriter format noColor writer w
  | OpSetFormatting format noColor => SetFormatting format noColor w
  | OpSetGlobalLevel l => SetGlobalLevel l w
  | OpAppendWriter a => AppendWriter a w
  | OpRemoveWriter a => RemoveWriter a w
  | OpUpdateWriter old new => fst (UpdateWriter old new w)
  | OpNewConsoleWriter format noColor =>
      snd (alloc (CW (NewConsoleWriter format noColor Stdout)) w)
  | OpNewBufferedWriter format noColor =>
      snd (alloc (BW (NewBufferedWriter format noColor)) w)
  | OpSuppressExit b => with_suppressExit b w
  | OpTick t => with_clock t w
  end.

(** A program runs until the process has exited. *)
Definition run (ops : list Op) (w : World) : World :=
  foldl (fun (w : World) (op : Op) =>
           match exited w with
           | Some _ => w
           | None => step op w
           end)
        w ops.

(** The package once initialised ([var _logger = NewLogger(Default, false)]),
    with zerolog's global level at [g] and the clock at [t]. *)
Definition start (g : Level) (t : Time) : World :=
  let w :=
    {| _logger := {| format := 0%Z; level := 0%Z; writers := [];
                     noColor := false; buffer := []; hold := false |};
       _suppressExit := false; gLevel := g; heap := []; stdout := [];
       sunk := []; exited := None; clock := t |} in
  let '(l, w') := NewLogger Default false [] w in
  with_logger l w'.

(** The states a program can reach. *)
Definition reachable (w : World) : Prop :=
  exists (g : Level) (t : Time) (ops : list Op), w = run ops (start g t).

(** A leveled logging call made at instant [call_at]. *)
Record Call : Type := {
  call_at : Time;
  call_level : Level;
  call_msg : string;
  call_err : option error;
  call_v : list Arg
}.

Definition call (w : World) (c : Call) : World :=
  log (call_level c) (call_msg c) (call_err c) (call_v c)
    (with_clock (call_at c) w).

(** The record that [log] queues for a call while the logger holds. *)
Definition queued (c : Call) : Message :=
  {| msg_Level := call_level c; msg_Time := call_at c;
     msg_Message := match call_v c with
                    | [] => call_msg c
                    | _ :: _ => Sprintf (call_msg c) (call_v c)
                    end;
     msg_Error := match call_err c with Some e => e | None => "" end;
     msg_err := call_err c |}.

(** One write per writer in [ws], in their order: what the sinks receive
    for an event that zerolog emits in state [w]. *)
Definition sink_entries (w : World) (ws : list loc) (lvl : Level)
    (e : option error) (m : string) : list SinkWrite :=
  flat_map (fun a : loc =>
              match heap w !! a with
              | Some o => [sink_entry lvl (clock w) e m a o]
              | None => []
              end)
           ws.

(** What the sinks receive when the handler of [l] is given an event in
    state [w]: nothing when zerolog filters its level out. *)
Definition fanout (w : World) (l : Logger) (lvl : Level) (e : option error)
    (m : string) : list SinkWrite :=
  if should (gLevel w) lvl then sink_entries w (writers l) lvl e m else [].

(** The queue is non-empty only while the logger holds. *)
Definition queue_invariant (w : World) : Prop :=
  buffer (_logger w) <> [] -> hold (_logger w) = true.

(** The calls that replace the global logger through [NewLogger]. *)
Definition reinitialises (op : Op) : bool :=
  match op with
  | OpInitLogger _ | OpInitLoggerWithWriter _ _ _ | OpAppendWriter _
  | OpRemoveWriter _ | OpUpdateWriter _ _ => true
  | _ => false
  end.

End Programs.

(** ** An environment to run the model in *)

(** Modelled from the spec: the level filter of the backend (zerolog, which
    is not part of the package): a record is emitted only if its level is at
    least the active minimum level, except Fatal and Panic, which always
    emit. *)
Definition spec_should (g l : Level) : bool :=
  (g <=? l)%Z || (l =? FatalLevel)%Z || (l =? PanicLevel)%Z.

Definition show_Z (n : Z) : string := NilZero.string_of_int (Z.to_int n).

Definition show_Arg (a : Arg) : string :=
  match a with
  | ArgString s => s
  | ArgInt n => show_Z n
  end.

(** [fmt.Sprintf] on the verbs the package itself uses: [%s], [%d], [%v]
    take the next argument, [%%] is a percent sign. *)
Fixpoint Sprintf_verbs (f : string) (v : list Arg) : string :=
  match f with
  | EmptyString => EmptyString
  | String "%" (String c r) =>
      if Ascii.eqb c "%" then String "%" (Sprintf_verbs r v)
      else match v with
           | a :: v' => show_Arg a +:+ Sprintf_verbs r v'
           | [] => "%!" +:+ String c ("(MISSING)" +:+ Sprintf_verbs r [])
           end
  | String c r => String c (Sprintf_verbs r v)
  end.

(** The lowercase tokens of the levels. *)
Definition Level_token (l : Level) : string :=
  if (l =? TraceLevel)%Z then "trace"
  else if (l =? DebugLevel)%Z then "debug"
  else if (l =? InfoLevel)%Z then "info"
  else if (l =? WarnLevel)%Z then "warn"
  else if (l =? ErrorLevel)%Z then "error"
  else if (l =? FatalLevel)%Z then "fatal"
  else if (l =? PanicLevel)%Z then "panic"
  else if (l =? Disabled)%Z then "disabled"
  else "".

(** A stand-in for zerolog's encoder: one line with the keys of the JSON
    mode. No theorem depends on its shape. *)
Definition encode_line (l : Level) (t : Time) (m : string)
    (e : option error) : string :=
  "{level:" +:+ Level_token l +:+ ",time:" +:+ show_Z t +:+
  match e with
  | Some e => ",error:" +:+ e
  | None => ""
  end +:+ ",message:" +:+ m +:+ "}" +:+ String newline EmptyString.

Definition spec_env : Env :=
  {| should := spec_should; encode := encode_line; Sprintf := Sprintf_verbs |}.

(** A stand-in for zerolog's console writer: it takes the lines that open
    an object and passes them on as they are, and cannot decode the rest. *)
Definition brace_console : Console :=
  {| console_render := fun (_ : Format) (_ : bool) (p : string) =>
       match p with
       | String "{" _ => inr p
       | _ => inl "invalid character"
       end |}.

(** ** Views of the state *)

(** The part of the state that decides what the handler emits and where:
    everything but the contents of the destinations and the record of the
    writes. *)
Definition config (w : World)
  : Logger * bool * Level * option Z * Time * list (Format * bool) :=
  (_logger w, _suppressExit w, gLevel w, exited w, clock w,
   map formatting (heap w)).

(** ** Words of the specification *)

(** [n] copies of the byte [c]. *)
Fixpoint run_of (c : ascii) (n : nat) : string :=
  match n with
  | O => EmptyString
  | S n' => String c (run_of c n')
  end.

(** The line feed as a string, and the input of the package's own test of
    [Buffer.Write]: "multiline", two line feeds, "input". *)
Definition LF : string := String newline EmptyString.

Definition multiline_input : string :=
  "multiline" +:+ LF +:+ LF +:+ "input".

(** The lines [Buffer.Write] keeps while the global logger has format [g]:
    all of them under [Default], the non-empty ones otherwise. *)
Definition kept (g : Format) (line : string) : bool :=
  (g =? Default)%Z || negb (line =? "").

(** ** Parsing a format *)

(** [strings.ToLower] on one byte: the ASCII capitals become small letters.
    Go lower-cases the runes outside ASCII by Unicode; none of them becomes
    a letter of "default", "pretty" or "json", so [ParseFormat] decides as
    the source does on every input. *)
Definition lower (c : ascii) : ascii :=
  let n := nat_of_ascii c in
  if (65 <=? n)%nat && (n <=? 90)%nat then ascii_of_nat (n + 32) else c.

Fixpoint ToLower (s : string) : string :=
  match s with
  | EmptyString => EmptyString
  | String c r => String (lower c) (ToLower r)
  end.

Section Parsing.
Context {E : Env}.

(** [func ParseFormat(formatStr string) (Format, error)] *)
Definition ParseFormat (formatStr : string) : Format * option error :=
  let s := ToLower formatStr in
  if s =? "default" then (Default, None)
  else if s =? "pretty" then (Pretty, None)
  else if s =? "json" then (JSON, None)
  else (Default,
        Some (Sprintf "unknown log format: '%s'" [ArgString formatStr])).

End Parsing.

(** ** Well-formed writers and states *)

(** The cached renderer of a ConsoleWriter is the one of its format and
    color flag. *)
Definition consistent (c : ConsoleWriter) : Prop :=
  writer c = newWriter (cw_format c) (cw_noColor c).

(** The lines [Buffer.Write] captures from [p] while the global logger has
    format [g]. *)
Definition captured (g : Format) (p : string) : list string :=
  List.filter (kept g)
    (Split (strip_leading_newlines (TrimSuffix p LF)) newline).

(** Number of copies of the byte [c] in [s]. *)
Fixpoint count_byte (c : ascii) (s : string) : nat :=
  match s with
  | EmptyString => O
  | String d r => (if Ascii.eqb d c then 1 else 0) + count_byte c r
  end.

(** A write on a sink without its timestamp. *)
Definition untimed (s : SinkWrite) : SinkWrite :=
  {| sw_writer := sw_writer s; sw_format := sw_format s;
     sw_noColor := sw_noColor s; sw_level := sw_level s; sw_time := 0%Z;
     sw_message := sw_message s; sw_error := sw_error s |}.

(** Every sink of the logger exists and renders with the format and the
    color flag of the logger. *)
Definition synced (w : World) : Prop :=
  Forall (fun a : loc =>
            map formatting (heap w) !! a
            = Some (format (_logger w), noColor (_logger w)))
         (writers (_logger w)).

(** The writers a call passes to the package. *)
Definition op_writers (op : Op) : list loc :=
  match op with
  | OpInitLoggerWithWriter _ _ writer => writer
  | OpAppendWriter a => [a]
  | OpRemoveWriter a => [a]
  | OpUpdateWriter old new => [old; new]
  | _ => []
  end.

Section Sound.
Context {E : Env} {C : Console}.

(** The states of programs that run while the process lives, work on the
    global logger with the calls of [Op], and pass the package only writers
    they have created. A program that wraps a writer of the global logger
    in a logger of its own with [NewLogger], or calls a writer's own
    [SetFormatting], is not among them. *)
Inductive sound : World -> Prop :=
| sound_start (g : Level) (t : Time) : sound (start g t)
| sound_step (w : World) (op : Op) :
    sound w ->
    exited w = None ->
    Forall (fun a : loc => a < length (heap w)) (op_writers op) ->
    sound (step op w).

End Sound.

(** ** encoding/json, as far as UnmarshalLog reads with it *)

(** A JSON value; a number keeps its text, a string and a key are decoded. *)
#[warnings="-register-all"]
Inductive json : Type :=
| JNull
| JBool (b : bool)
| JNumber (text : string)
| JString (s : string)
| JArray (elements : list json)
| JObject (members : list (string * json)).

Definition quote : ascii := "034"%char.
Definition backslash : ascii := "092"%char.

(** The white space of JSON: space, tab, line feed, carriage return. *)
Definition is_space (c : ascii) : bool :=
  Ascii.eqb c " " || Ascii.eqb c "009" || Ascii.eqb c "010"
  || Ascii.eqb c "013".

Fixpoint skip_space (s : string) : string :=
  match s with
  | String c r => if is_space c then skip_space r else s
  | EmptyString => s
  end.

Definition is_digit (c : ascii) : bool :=
  let n := nat_of_ascii c in (48 <=? n)%nat && (n <=? 57)%nat.

Definition hex_value (c : ascii) : option N :=
  let n := N_of_ascii c in
  if (48 <=? n)%N && (n <=? 57)%N then Some (n - 48)%N
  else if (97 <=? n)%N && (n <=? 102)%N then Some (n - 87)%N
  else if (65 <=? n)%N && (n <=? 70)%N then Some (n - 55)%N
  else None.

Fixpoint strip_prefix (p s : string) : option string :=
  match p, s with
  | EmptyString, _ => Some s
  | String a p', String b s' =>
      if Ascii.eqb a b then strip_prefix p' s' else None
  | String _ _, EmptyString => None
  end.

Fixpoint drop_digits (s : string) : string :=
  match s with
  | String c r => if is_digit c then drop_digits r else s
  | EmptyString => s
  end.

(** One digit or more, then the rest. *)
Definition some_digits (s : string) : option string :=
  match s with
  | String c r => if is_digit c then Some (drop_digits r) else None
  | EmptyString => None
  end.

(** The optional fraction and exponent of a number. *)
Definition fraction (s : string) : option string :=
  match s with
  | String c r => if Ascii.eqb c "." then some_digits r else Some s
  | EmptyString => Some s
  end.

Definition exponent (s : string) : option string :=
  match s with
  | String c r =>
      if Ascii.eqb c "e" || Ascii.eqb c "E" then
        match r with
        | String d r' =>
            if Ascii.eqb d "+" || Ascii.eqb d "-" then some_digits r'
            else some_digits r
        | EmptyString => None
        end
      else Some s
  | EmptyString => Some s
  end.

(** A JSON number at the start of [s]: what follows it. *)
Definition number (s : string) : option string :=
  let unsigned :=
    match s with
    | String c r => if Ascii.eqb c "-" then r else s
    | EmptyString => s
    end in
  let integer :=
    match unsigned with
    | String c r =>
        if Ascii.eqb c "0" then Some r
        else if is_digit c then Some (drop_digits r)
        else None
    | EmptyString => None
    end in
  match integer with
  | Some r => match fraction r with
              | Some r' => exponent r'
              | None => None
              end
  | None => None
  end.

(** The pieces of a string literal: a byte of the input (an escaped
    character counts as the byte it stands for) or a [\u] escape. *)
Inductive piece : Type :=
| PByte (c : ascii)
| PUnit (u : N).

(** The body of a string literal, after its opening quote: its pieces and
    what follows the closing quote. Control characters and unknown escapes
    are errors. *)
Fixpoint literal (s : string) : option (list piece * string) :=
  let more (p : piece) (r : string) :=
    match literal r with
    | Some (ps, r') => Some (p :: ps, r')
    | None => None
    end in
  match s with
  | EmptyString => None
  | String c r =>
      if Ascii.eqb c quote then Some ([], r)
      else if Ascii.eqb c backslash then
        match r with
        | String e r1 =>
            if Ascii.eqb e quote then
              match literal r1 with
              | Some (ps, r') => Some (PByte quote :: ps, r')
              | None => None
              end
            else if Ascii.eqb e backslash then
              match literal r1 with
              | Some (ps, r') => Some (PByte backslash :: ps, r')
              | None => None
              end
            else if Ascii.eqb e "/" then
              match literal r1 with
              | Some (ps, r') => Some (PByte "/" :: ps, r')
              | None => None
              end
            else if Ascii.eqb e "b" then
              match literal r1 with
              | Some (ps, r') => Some (PByte "008" :: ps, r')
              | None => None
              end
            else if Ascii.eqb e "f" then
              match literal r1 with
              | Some (ps, r') => Some (PByte "012" :: ps, r')
              | None => None
              end
            else if Ascii.eqb e "n" then
              match literal r1 with
              | Some (ps, r') => Some (PByte "010" :: ps, r')
              | None => None
              end
            else if Ascii.eqb e "r" then
              match literal r1 with
              | Some (ps, r') => Some (PByte "013" :: ps, r')
              | None => None
              end
            else if Ascii.eqb e "t" then
              match literal r1 with
              | Some (ps, r') => Some (PByte "009" :: ps, r')
              | None => None
              end
            else if Ascii.eqb e "u" then
              match r1 with
              | String h1 (String h2 (String h3 (String h4 r2))) =>
                  match hex_value h1, hex_value h2, hex_value h3,
                        hex_value h4 with
                  | Some a, Some b, Some c', Some d =>
                      match literal r2 with
                      | Some (ps, r') =>
                          Some (PUnit (a * 4096 + b * 256 + c' * 16 + d)%N
                                  :: ps, r')
                      | None => None
                      end
                  | _, _, _, _ => None
                  end
              | _ => None
              end
            else None
        | EmptyString => None
        end
      else if (nat_of_ascii c <? 32)%nat then None
      else
        match literal r with
        | Some (ps, r') => Some (PByte c :: ps, r')
        | None => None
        end
  end.

(** UTF-8, as the decoder of string literals needs it. *)
Definition byte (n : N) : string := String (ascii_of_N n) EmptyString.

Definition encode_rune (r : N) : string :=
  if (r <? 128)%N then byte r
  else if (r <? 2048)%N then
    byte (192 + N.shiftr r 6)%N +:+ byte (128 + N.land r 63)%N
  else if (r <? 65536)%N then
    byte (224 + N.shiftr r 12)%N +:+ byte (128 + N.land (N.shiftr r 6) 63)%N
    +:+ byte (128 + N.land r 63)%N
  else
    byte (240 + N.shiftr r 18)%N +:+ byte (128 + N.land (N.shiftr r 12) 63)%N
    +:+ byte (128 + N.land (N.shiftr r 6) 63)%N +:+ byte (128 + N.land r 63)%N.

(** U+FFFD, which stands in for what cannot be decoded. *)
Definition replacement : string := encode_rune 65533%N.

Definition between (lo hi b : N) : bool := (lo <=? b)%N && (b <=? hi)%N.

(** The number of bytes that continue a well-formed sequence that starts
    with the byte [b0] and goes on with [next]; [None] when there is no
    such sequence. *)
Definition continues (b0 : N) (next : list N) : option nat :=
  let tail (lo hi : N) (k : nat) :=
    match next with
    | b1 :: rest =>
        if between lo hi b1 && forallb (between 128 191) (firstn k rest)
           && (k <=? List.length rest)%nat
        then Some (S k) else None
    | [] => None
    end in
  if between 194%N 223%N b0 then tail 128%N 191%N 0%nat
  else if (b0 =? 224)%N then tail 160%N 191%N 1%nat
  else if between 225%N 236%N b0 || between 238%N 239%N b0 then tail 128%N 191%N 1%nat
  else if (b0 =? 237)%N then tail 128%N 159%N 1%nat
  else if (b0 =? 240)%N then tail 144%N 191%N 2%nat
  else if between 241%N 243%N b0 then tail 128%N 191%N 2%nat
  else if (b0 =? 244)%N then tail 128%N 143%N 2%nat
  else None.

(** The bytes the next pieces give, up to [k] of them. *)
Fixpoint ahead (k : nat) (ps : list piece) : list N :=
  match k, ps with
  | S k', PByte c :: r => N_of_ascii c :: ahead k' r
  | _, _ => []
  end.

(** The text of a string literal: bytes that are not UTF-8 become U+FFFD,
    a [\u] escape becomes its character, two of them that form a surrogate
    pair become one character, a surrogate on its own U+FFFD. [pending]
    counts the bytes of a sequence already found well formed. *)
Fixpoint unquote (pending : nat) (ps : list piece) : string :=
  match ps with
  | [] => EmptyString
  | PByte c :: r =>
      match pending with
      | S k => String c (unquote k r)
      | O =>
          if (N_of_ascii c <? 128)%N then String c (unquote O r)
          else match continues (N_of_ascii c) (ahead 3 r) with
               | Some k => String c (unquote k r)
               | None => replacement +:+ unquote O r
               end
      end
  | PUnit u :: r =>
      if between 55296%N 56319%N u then
        match r with
        | PUnit u' :: r' =>
            if between 56320%N 57343%N u' then
              encode_rune (65536 + (u - 55296) * 1024 + (u' - 56320))%N
              +:+ unquote O r'
            else replacement +:+ unquote O r
        | _ => replacement +:+ unquote O r
        end
      else if between 56320%N 57343%N u then replacement +:+ unquote O r
      else encode_rune u +:+ unquote O r
  end.

(** A string literal at the start of [s], after its opening quote. *)
Definition text (s : string) : option (string * string) :=
  match literal s with
  | Some (ps, r) => Some (unquote O ps, r)
  | None => None
  end.

(** encoding/json refuses arrays and objects nested deeper than this. *)
Definition maxNestingDepth : nat := 100 * 100.

(** A JSON value at the start of [s], after white space, and what follows
    it. [fuel] is the number of levels left, this value counted: a scalar
    needs one, an array or object needs one more for what is in it. The
    loop over the elements of an array or the members of an object runs at
    most once for each byte left. *)
Fixpoint value (fuel : nat) (s : string) : option (json * string) :=
  match fuel with
  | O => None
  | S fuel =>
      match skip_space s with
      | EmptyString => None
      | String c r =>
          if Ascii.eqb c "n" then
            match strip_prefix "ull" r with
            | Some r' => Some (JNull, r')
            | None => None
            end
          else if Ascii.eqb c "t" then
            match strip_prefix "rue" r with
            | Some r' => Some (JBool true, r')
            | None => None
            end
          else if Ascii.eqb c "f" then
            match strip_prefix "alse" r with
            | Some r' => Some (JBool false, r')
            | None => None
            end
          else if Ascii.eqb c quote then
            match text r with
            | Some (t, r') => Some (JString t, r')
            | None => None
            end
          else if Ascii.eqb c "[" then
            if Nat.eqb fuel 0 then None else
            match skip_space r with
            | String "]" r' => Some (JArray [], r')
            | _ =>
                match
                  (fix elements (k : nat) (s : string)
                     : option (list json * string) :=
                     match k with
                     | O => None
                     | S k =>
                         match value fuel s with
                         | Some (v, r1) =>
                             match skip_space r1 with
                             | String "," r2 =>
                                 match elements k r2 with
                                 | Some (vs, r3) => Some (v :: vs, r3)
                                 | None => None
                                 end
                             | String "]" r2 => Some ([v], r2)
                             | _ => None
                             end
                         | None => None
                         end
                     end) (S (String.length r)) r
                with
                | Some (vs, r') => Some (JArray vs, r')
                | None => None
                end
            end
          else if Ascii.eqb c "{" then
            if Nat.eqb fuel 0 then None else
            match skip_space r with
            | String "}" r' => Some (JObject [], r')
            | _ =>
                match
                  (fix members (k : nat) (s : string)
                     : option (list (string * json) * string) :=
                     match k with
                     | O => None
                     | S k =>
                         match skip_space s with
                         | String q r0 =>
                             if Ascii.eqb q quote then
                               match text r0 with
                               | Some (key, r1) =>
                                   match skip_space r1 with
                                   | String ":" r2 =>
                                       match value fuel r2 with
                                       | Some (v, r3) =>
                                           match skip_space r3 with
                                           | String "," r4 =>
                                               match members k r4 with
                                               | Some (ms, r5) =>
                                                   Some ((key, v) :: ms, r5)
                                               | None => None
                                               end
                                           | String "}" r4 =>
                                               Some ([(key, v)], r4)
                                           | _ => None
                                           end
                                       | None => None
                                       end
                                   | _ => None
                                   end
                               | None => None
                               end
                             else None
                         | EmptyString => None
                         end
                     end) (S (String.length r)) r
                with
                | Some (ms, r') => Some (JObject ms, r')
                | None => None
                end
            end
          else
            match number (String c r) with
            | Some r' =>
                Some (JNumber (substring 0 (String.length (String c r)
                                              - String.length r')
                                 (String c r)), r')
            | None => None
            end
      end
  end.

(** The input as one JSON value, white space around it allowed; [None] for
    what is not well-formed JSON, or is nested too deep. *)
Definition parse_json (s : string) : option json :=
  match value (S maxNestingDepth) s with
  | Some (v, r) => if skip_space r =? "" then Some v else None
  | None => None
  end.

(** The four fields of the placeholder that UnmarshalLog decodes into,
    [level], [time], [message] and [error]: all of them Go strings. *)
Inductive Field : Type := FLevel | FTime | FMessage | FError.

Definition Field_eqb (f g : Field) : bool :=
  match f, g with
  | FLevel, FLevel | FTime, FTime | FMessage, FMessage | FError, FError => true
  | _, _ => false
  end.

Definition Field_name (f : Field) : string :=
  match f with
  | FLevel => "level"
  | FTime => "time"
  | FMessage => "message"
  | FError => "error"
  end.

(** A key matches a field when the two are equal under Unicode case
    folding. Next to the upper-case letters, U+017F folds to [s] and
    U+212A to [k]. *)
Fixpoint fold_name (s : string) : string :=
  match s with
  | EmptyString => EmptyString
  | String c r =>
      let long_s :=
        match r with
        | String c1 r1 =>
            if Ascii.eqb c "197" && Ascii.eqb c1 "191"
            then Some (String "s" (fold_name r1)) else None
        | EmptyString => None
        end in
      let kelvin :=
        match r with
        | String c1 (String c2 r2) =>
            if Ascii.eqb c "226" && Ascii.eqb c1 "132" && Ascii.eqb c2 "170"
            then Some (String "k" (fold_name r2)) else None
        | _ => None
        end in
      match long_s, kelvin with
      | Some t, _ => t
      | None, Some t => t
      | None, None => String (lower c) (fold_name r)
      end
  end.

Definition field_named (key : string) : option Field :=
  List.find (fun f => fold_name key =? Field_name f)
    [FLevel; FTime; FMessage; FError].

Definition zero_RawLog : RawLog :=
  {| raw_Level := ""; raw_Time := ""; raw_Message := ""; raw_Error := "" |}.

Definition store (f : Field) (s : string) (raw : RawLog) : RawLog :=
  match f with
  | FLevel => {| raw_Level := s; raw_Time := raw_Time raw;
                 raw_Message := raw_Message raw; raw_Error := raw_Error raw |}
  | FTime => {| raw_Level := raw_Level raw; raw_Time := s;
                raw_Message := raw_Message raw; raw_Error := raw_Error raw |}
  | FMessage => {| raw_Level := raw_Level raw; raw_Time := raw_Time raw;
                   raw_Message := s; raw_Error := raw_Error raw |}
  | FError => {| raw_Level := raw_Level raw; raw_Time := raw_Time raw;
                 raw_Message := raw_Message raw; raw_Error := s |}
  end.

Definition load (f : Field) (raw : RawLog) : string :=
  match f with
  | FLevel => raw_Level raw
  | FTime => raw_Time raw
  | FMessage => raw_Message raw
  | FError => raw_Error raw
  end.

Definition kind (v : json) : string :=
  match v with
  | JNull => "null"
  | JBool _ => "bool"
  | JNumber _ => "number"
  | JString _ => "string"
  | JArray _ => "array"
  | JObject _ => "object"
  end.

(** The error for a value that does not fit a Go string. Only that it is
    an error matters below, its text is the decoder's business. *)
Definition type_error (v : json) (into : string) : error :=
  "json: cannot unmarshal " +:+ kind v +:+ " into " +:+ into.

(** One member of the object. A key that names no field is skipped; a
    string is stored in its field, the last one winning; [null] leaves the
    field as it is; anything else is a type error, of which the decoder
    keeps the first and goes on. *)
Definition decode_member (st : RawLog * option error) (kv : string * json)
  : RawLog * option error :=
  match field_named (fst kv) with
  | None => st
  | Some f =>
      match snd kv with
      | JString s => (store f s (fst st), snd st)
      | JNull => st
      | v =>
          (fst st,
           match snd st with
           | Some e => Some e
           | None =>
               Some (type_error v ("Go struct field ." +:+ Field_name f
                                      +:+ " of type string"))
           end)
      end
  end.

(** json.Unmarshal into the placeholder: the input is checked to be
    well-formed JSON first; [null] leaves the placeholder empty, an object
    is decoded member by member, any other value is a type error. *)
Definition Unmarshal_RawLog (bytes : string) : error + RawLog :=
  match parse_json bytes with
  | None => inl "invalid character or unexpected end of JSON input"
  | Some JNull => inr zero_RawLog
  | Some (JObject ms) =>
      match foldl decode_member (zero_RawLog, None) ms with
      | (raw, None) => inr raw
      | (_, Some e) => inl e
      end
  | Some v => inl (type_error v "Go value of type struct")
  end.

(** The decoders of UnmarshalLog with json.Unmarshal as above; time.Parse
    and zerolog.ParseLevel stay open. *)
Definition json_codec (parse_time : string -> string -> error + Time)
    (parse_level : string -> error + Level) : Codec :=
  {| json_Unmarshal := Unmarshal_RawLog;
     time_Parse := parse_time;
     zerolog_ParseLevel := parse_level |}.

(** What an input says about a field, read off the JSON value: a member
    fits when its key names no field or its value is a string or [null];
    the text of a field is the string of the last member that names it. *)
Definition fits (kv : string * json) : bool :=
  match field_named (fst kv) with
  | None => true
  | Some _ =>
      match snd kv with
      | JString _ | JNull => true
      | _ => false
      end
  end.

Definition decodable (v : json) : bool :=
  match v with
  | JNull => true
  | JObject ms => forallb fits ms
  | _ => false
  end.

Definition text_from (f : Field) (acc : string) (ms : list (string * json))
  : string :=
  foldl (fun (acc : string) (kv : string * json) =>
           match field_named (fst kv), snd kv with
           | Some g, JString s => if Field_eqb f g then s else acc
           | _, _ => acc
           end) acc ms.

Definition member_text (f : Field) (v : json) : string :=
  match v with
  | JObject ms => text_from f "" ms
  | _ => ""
  end.

(** The placeholder in terms of the JSON value. *)
Definition read_RawLog (v : json) : RawLog :=
  {| raw_Level := member_text FLevel v; raw_Time := member_text FTime v;
     raw_Message := member_text FMessage v;
     raw_Error := member_text FError v |}.

(** What the members leave in the placeholder when they all fit, and that
    an error is all there is when one does not. *)
Definition decoded (raw : RawLog) (ms : list (string * json))
    (st : RawLog * option error) : Prop :=
  match snd st with
  | None =>
      forallb fits ms = true /\
      forall f, load f (fst st) = text_from f (load f raw) ms
  | Some _ => forallb fits ms = false
  end.

(** ** A time and a level decoder to run examples with *)

(** The digits a string starts with, [k] of them, as a number. *)
Fixpoint digits (k : nat) (acc : Z) (s : string) : option (Z * string) :=
  match k with
  | O => Some (acc, s)
  | S k' =>
      match s with
      | String c r =>
          if is_digit c
          then digits k' (acc * 10 + (Z.of_nat (nat_of_ascii c) - 48))%Z r
          else None
      | EmptyString => None
      end
  end.

Definition expect (c : ascii) (s : string) : option string :=
  match s with
  | String d r => if Ascii.eqb c d then Some r else None
  | EmptyString => None
  end.

Definition leap (y : Z) : bool :=
  ((y mod 4 =? 0) && negb (y mod 100 =? 0) || (y mod 400 =? 0))%Z.

Definition days_in (y m : Z) : Z :=
  if (m =? 2)%Z then (if leap y then 29 else 28)%Z
  else if ((m =? 4) || (m =? 6) || (m =? 9) || (m =? 11))%Z then 30%Z
  else 31%Z.

(** Days from 1970-01-01 to the given day of the civil calendar. *)
Definition days_from_civil (y m d : Z) : Z :=
  let y' := (if m <=? 2 then y - 1 else y)%Z in
  let era := (y' / 400)%Z in
  let yoe := (y' - era * 400)%Z in
  let doy := ((153 * ((m + 9) mod 12) + 2) / 5 + d - 1)%Z in
  let doe := (yoe * 365 + yoe / 4 - yoe / 100 + doy)%Z in
  (era * 146097 + doe - 719468)%Z.

(** The zone of an RFC 3339 time, in seconds east of UTC. *)
Definition zone (s : string) : option Z :=
  match s with
  | String c r =>
      if Ascii.eqb c "Z" then (if r =? "" then Some 0%Z else None)
      else if Ascii.eqb c "+" || Ascii.eqb c "-" then
        match digits 2 0 r with
        | Some (hh, r1) =>
            match expect ":" r1 with
            | Some r2 =>
                match digits 2 0 r2 with
                | Some (mm, r3) =>
                    if (r3 =? "") && (hh <=? 23)%Z && (mm <=? 59)%Z
                    then Some ((if Ascii.eqb c "-" then -1 else 1)
                               * (hh * 3600 + mm * 60))%Z
                    else None
                | None => None
                end
            | None => None
            end
        | None => None
        end
      else None
  | EmptyString => None
  end.

(** The times of RFC 3339 written out in full without a fraction,
    [2006-01-02T15:04:05Z] or with an offset for [Z], as seconds since
    1970-01-01T00:00:00Z. These time.Parse accepts at this layout. *)
Definition rfc3339 (layout value : string) : error + Time :=
  let bad := inl ("parsing time " +:+ value) in
  if negb (layout =? "2006-01-02T15:04:05Z07:00") then bad else
  match digits 4 0 value with
  | Some (y, r) =>
  match expect "-" r with Some r =>
  match digits 2 0 r with Some (m, r) =>
  match expect "-" r with Some r =>
  match digits 2 0 r with Some (d, r) =>
  match expect "T" r with Some r =>
  match digits 2 0 r with Some (hh, r) =>
  match expect ":" r with Some r =>
  match digits 2 0 r with Some (mm, r) =>
  match expect ":" r with Some r =>
  match digits 2 0 r with Some (ss, r) =>
  match zone r with Some off =>
    if ((1 <=? m) && (m <=? 12) && (1 <=? d) && (d <=? days_in y m)
        && (hh <=? 23) && (mm <=? 59) && (ss <=? 59))%Z
    then inr (days_from_civil y m d * 86400 + hh * 3600 + mm * 60 + ss
              - off)%Z
    else bad
  | None => bad end | None => bad end | None => bad end | None => bad end
  | None => bad end | None => bad end | None => bad end | None => bad end
  | None => bad end | None => bad end | None => bad end
  | None => bad
  end.

(** The level tokens of zerolog, as it writes them. *)
Definition level_token (s : string) : error + Level :=
  if s =? "trace" then inr TraceLevel
  else if s =? "debug" then inr DebugLevel
  else if s =? "info" then inr InfoLevel
  else if s =? "warn" then inr WarnLevel
  else if s =? "error" then inr ErrorLevel
  else if s =? "fatal" then inr FatalLevel
  else if s =? "panic" then inr PanicLevel
  else if s =? "disabled" then inr Disabled
  else inl ("Unknown Level String: " +:+ s).

Definition quoted (s : string) : string :=
  String quote s +:+ String quote EmptyString.

(** [{"level":"info","time":"2021-01-01T00:00:00Z","message":M}] *)
Definition info_line (message : string) : string :=
  "{" +:+ quoted "level" +:+ ":" +:+ quoted "info" +:+ ","
  +:+ quoted "time" +:+ ":" +:+ quoted "2021-01-01T00:00:00Z" +:+ ","
  +:+ quoted "message" +:+ ":" +:+ message +:+ "}".

(** * Theorems *)

(** ** Format.String (C10) *)

(** C10. [Format.String] is total over all integer values of [Format]: it
    never panics, returns "default", "pretty" and "json" for [Default],
    [Pretty] and [JSON], and the empty string for every other value (below
    [Default] or above [JSON]); so [Format.MarshalText] returns that text
    with a nil error for every value. *)
Theorem Format_String_total (f : Format) :
  Format_String f =
    Returns (if (f =? Default)%Z then "default"
             else if (f =? Pretty)%Z then "pretty"
             else if (f =? JSON)%Z then "json"
             else "")
  /\ (if (f <? Default)%Z || (f >? JSON)%Z
      then Format_String f = Returns "" else True)
  /\ exists text, Format_MarshalText f = Returns (text, None).
Proof.
  assert (E : Format_String f =
    Returns (if (f =? Default)%Z then "default"
             else if (f =? Pretty)%Z then "pretty"
             else if (f =? JSON)%Z then "json"
             else "")).
  { unfold Format_String, index, Default, Pretty, JSON.
    destruct (Z.ltb_spec f 0); simpl.
    - destruct (Z.eqb_spec f 0), (Z.eqb_spec f 1), (Z.eqb_spec f 2);
        try lia; reflexivity.
    - destruct (Z.gtb_spec f 2).
      + destruct (Z.eqb_spec f 0), (Z.eqb_spec f 1), (Z.eqb_spec f 2);
          try lia; reflexivity.
      + destruct (Z.ltb_spec f 0); [lia |].
        assert (f = 0 \/ f = 1 \/ f = 2)%Z as [-> | [-> | ->]] by lia;
          reflexivity. }
  split; [exact E | split].
  - unfold Format_String. destruct ((f <? Default)%Z || (f >? JSON)%Z); auto.
  - unfold Format_MarshalText. rewrite E. eauto.
Qed.

(** ** Strings *)

Lemma append_nil_l (t : string) : "" +:+ t = t.
Proof. reflexivity. Qed.

Lemma append_cons (c : ascii) (s t : string) :
  String c s +:+ t = String c (s +:+ t).
Proof. reflexivity. Qed.

Ltac push_append :=
  repeat (rewrite append_cons in * || rewrite append_nil_l in * ).

Lemma append_nil_r (s : string) : s +:+ "" = s.
Proof.
  induction s as [| c s IH]; [reflexivity |].
  now rewrite append_cons, IH.
Qed.

Lemma length_append (s t : string) :
  String.length (s +:+ t) = (String.length s + String.length t)%nat.
Proof.
  induction s as [| c s IH]; [reflexivity |].
  rewrite append_cons. simpl. now rewrite IH.
Qed.

Lemma substring_prefix (s t : string) :
  substring 0 (String.length s) (s +:+ t) = s.
Proof.
  induction s as [| c s IH].
  - rewrite append_nil_l. destruct t; reflexivity.
  - rewrite append_cons. simpl. now rewrite IH.
Qed.

Lemma HasSuffix_iff (p t : string) :
  HasSuffix p t = true <-> exists s, p = s +:+ t.
Proof.
  induction p as [| c p IH]; cbn [HasSuffix].
  - rewrite orb_false_r, String.eqb_eq. split.
    + intros <-. now exists "".
    + intros [[| d s] H]; push_append; [now symmetry | discriminate].
  - rewrite orb_true_iff, String.eqb_eq, IH. split.
    + intros [<- | [s ->]]; [now exists "" | now exists (String c s)].
    + intros [[| d s] H]; push_append.
      * left. now symmetry.
      * right. injection H as -> ->. now exists s.
Qed.

(** [TrimSuffix] removes exactly one trailing copy of the suffix, and leaves
    a string that does not end with it as it is. *)
Lemma TrimSuffix_spec (p t : string) :
  (exists s, p = s +:+ t /\ TrimSuffix p t = s) \/
  ((forall s, p <> s +:+ t) /\ TrimSuffix p t = p).
Proof.
  unfold TrimSuffix. destruct (HasSuffix p t) eqn:H.
  - apply HasSuffix_iff in H as [s ->]. left. exists s. split; [reflexivity |].
    rewrite length_append, Nat.add_sub. apply substring_prefix.
  - right. split; [| reflexivity]. intros s ->.
    assert (HasSuffix (s +:+ t) t = true) by (apply HasSuffix_iff; eauto).
    congruence.
Qed.

Lemma TrimSuffix_append (s t : string) : TrimSuffix (s +:+ t) t = s.
Proof.
  unfold TrimSuffix.
  assert (HasSuffix (s +:+ t) t = true) as -> by (apply HasSuffix_iff; eauto).
  rewrite length_append, Nat.add_sub. apply substring_prefix.
Qed.

(** A string is the run of [c] it starts with, followed by a rest that does
    not start with [c]. *)
Lemma leading_skip (c : ascii) (s : string) :
  s = run_of c (leading c s) +:+ skip (leading c s) s /\
  leading c (skip (leading c s) s) = O.
Proof.
  induction s as [| d s [IH1 IH2]]; simpl; [now split |].
  destruct (Ascii.eqb_spec d c) as [-> | Hne]; simpl.
  - split; [rewrite append_cons; now rewrite <- IH1 | exact IH2].
  - split; [reflexivity |]. simpl.
    destruct (Ascii.eqb_spec d c); [contradiction | reflexivity].
Qed.

Lemma Split_not_nil (s : string) (sep : ascii) : Split s sep <> [].
Proof.
  destruct s as [| c s]; simpl; [discriminate |].
  destruct (Ascii.eqb c sep); [discriminate |].
  destruct (Split s sep); discriminate.
Qed.

(** Joining the pieces with the separator gives the string back. *)
Lemma Join_Split (s : string) (sep : ascii) : Join (Split s sep) sep = s.
Proof.
  induction s as [| c s IH]; simpl; [reflexivity |].
  destruct (Ascii.eqb_spec c sep) as [-> | Hne].
  - pose proof (Split_not_nil s sep) as Hnil.
    simpl. destruct (Split s sep) as [| piece pieces]; [contradiction |].
    now rewrite IH.
  - pose proof (Split_not_nil s sep) as Hnil.
    destruct (Split s sep) as [| piece pieces]; [contradiction |].
    simpl in *. destruct pieces as [| piece' pieces].
    + now rewrite IH.
    + rewrite append_cons. now rewrite IH.
Qed.

(** No piece holds the separator. *)
Lemma Split_no_sep (s : string) (sep : ascii) :
  Forall (fun piece => contains sep piece = false) (Split s sep).
Proof.
  induction s as [| c s IH]; simpl.
  - repeat constructor.
  - destruct (Ascii.eqb_spec c sep) as [-> | Hne].
    + constructor; [reflexivity | exact IH].
    + destruct (Split s sep) as [| piece pieces].
      * repeat constructor. simpl.
        destruct (Ascii.eqb_spec c sep); [contradiction | reflexivity].
      * inversion IH as [| ? ? Hp Hps]; subst. constructor; [| exact Hps].
        simpl. destruct (Ascii.eqb_spec c sep); [contradiction | exact Hp].
Qed.

Lemma foldl_keep {A : Type} (keep : A -> bool) (xs acc : list A) :
  foldl (fun (acc : list A) (x : A) => if keep x then acc ++ [x] else acc)
        acc xs
  = acc ++ List.filter keep xs.
Proof.
  revert acc. induction xs as [| x xs IH]; intros acc; simpl.
  - now rewrite app_nil_r.
  - rewrite IH. destruct (keep x); [| reflexivity].
    now rewrite <- app_assoc.
Qed.

Lemma filter_all {A : Type} (keep : A -> bool) (xs : list A) :
  (forall x, keep x = true) -> List.filter keep xs = xs.
Proof.
  intros H. induction xs as [| x xs IH]; simpl; [reflexivity |].
  now rewrite H, IH.
Qed.

(** ** Buffer.Write (C6, C9) *)

Lemma Buffer_Write_eq (p : string) (b : Buffer) (w : World) :
  Buffer_Write p b w =
    (b ++ List.filter (kept (format (_logger w)))
            (Split (strip_leading_newlines (TrimSuffix p LF)) newline),
     (len p, None)).
Proof.
  unfold Buffer_Write. f_equal.
  exact (foldl_keep (kept (format (_logger w))) _ b).
Qed.

(** A string splits in one way only into a run of [c] and a rest that does
    not start with [c]. *)
Lemma run_of_unique (c : ascii) (k : nat) (tail s : string) :
  s = run_of c k +:+ tail -> (forall r, tail <> String c r) ->
  k = leading c s /\ tail = skip (leading c s) s.
Proof.
  revert s. induction k as [| k IH]; intros s -> Htail.
  - rewrite append_nil_l. destruct tail as [| d tail]; simpl; [now split |].
    destruct (Ascii.eqb_spec d c) as [-> | Hne]; [| now split].
    now destruct (Htail tail).
  - simpl run_of. rewrite append_cons. simpl.
    rewrite Ascii.eqb_refl. simpl.
    destruct (IH _ eq_refl Htail) as [Hk Ht]. split; congruence.
Qed.

Lemma skip_leading_start (c : ascii) (s r : string) :
  skip (leading c s) s <> String c r.
Proof.
  destruct (leading_skip c s) as [_ H]. intros E. rewrite E in H.
  simpl in H. now rewrite Ascii.eqb_refl in H.
Qed.

(** C6. For every input [p], [Buffer.Write] strips one trailing line feed
    if there is one; what is left is, in one way only, a run of [n] line
    feeds and a rest that does not start with a line feed, and the run is
    removed when [n] is two or more; what remains is split on the line
    feeds and the lines are appended to the buffer, without the empty ones
    unless the format of the global logger is [Default]. "multiline", two
    line feeds, "input" is captured as three lines (the middle one empty)
    under [Default] and as the two non-empty lines under any other format,
    such as [JSON]; three line feeds before "abc" are removed, one line
    feed before it is an empty line of its own. *)
Theorem Buffer_Write_lines (p : string) (b : Buffer) (w : World) :
  let trimmed := TrimSuffix p LF in
  let n := leading newline trimmed in
  let rest := skip n trimmed in
  let input := if (2 <=? n)%nat then rest else trimmed in
  let lines := Split input newline in
  ((p = trimmed +:+ LF) \/ (trimmed = p /\ forall s, p <> s +:+ LF))
  /\ trimmed = run_of newline n +:+ rest
  /\ (forall r, rest <> String newline r)
  /\ (forall k tail, trimmed = run_of newline k +:+ tail ->
        (forall r, tail <> String newline r) -> k = n /\ tail = rest)
  /\ Join lines newline = input
  /\ Forall (fun line => contains newline line = false) lines
  /\ Buffer_Write p b w =
       (b ++ (if (format (_logger w) =? Default)%Z then lines
              else List.filter (fun line => negb (line =? "")) lines),
        (len p, None))
  /\ fst (Buffer_Write multiline_input [] w) =
       (if (format (_logger w) =? Default)%Z
        then ["multiline"; ""; "input"]
        else ["multiline"; "input"])
  /\ fst (Buffer_Write multiline_input []
            (with_logger (with_formatting JSON (noColor (_logger w))
                            (_logger w)) w)) =
       ["multiline"; "input"]
  /\ fst (Buffer_Write (LF +:+ LF +:+ LF +:+ "abc" +:+ LF) b w) = b ++ ["abc"]
  /\ fst (Buffer_Write (LF +:+ "abc") [] w) =
       (if (format (_logger w) =? Default)%Z then [""; "abc"] else ["abc"]).
Proof.
  cbv zeta.
  split.
  { destruct (TrimSuffix_spec p LF) as [[s [Hp Hs]] | [Hp Hs]].
    - left. now rewrite Hs.
    - right. split; assumption. }
  split; [apply leading_skip |].
  split; [intros r; apply skip_leading_start |].
  split; [intros k tail Hk Htail; exact (run_of_unique _ _ _ _ Hk Htail) |].
  split; [apply Join_Split |].
  split; [apply Split_no_sep |].
  split.
  { rewrite Buffer_Write_eq. unfold strip_leading_newlines, kept.
    destruct (format (_logger w) =? Default)%Z; simpl.
    - f_equal. f_equal. apply filter_all. reflexivity.
    - reflexivity. }
  split.
  { rewrite Buffer_Write_eq. unfold kept.
    destruct (format (_logger w) =? Default)%Z; reflexivity. }
  split; [reflexivity |].
  split.
  - rewrite Buffer_Write_eq. unfold kept.
    destruct (format (_logger w) =? Default)%Z; reflexivity.
  - rewrite Buffer_Write_eq. unfold kept.
    destruct (format (_logger w) =? Default)%Z; reflexivity.
Qed.

Lemma Buffer_Write_result (p : string) (b : Buffer) (w : World) :
  snd (Buffer_Write p b w) = (len p, None).
Proof. reflexivity. Qed.

Lemma Output_Write_result (out : Output) (p : string) (w : World) :
  snd (Output_Write out p w) = (len p, None).
Proof. destruct out; reflexivity. Qed.

(** C9. For every input [p], [Buffer.Write] returns [len(p)] and a nil
    error, however many lines it captures. [BufferedWriter.Write] returns
    the same whenever it hands the write on to its buffer: under the JSON
    format, where it writes [p] itself, and under the other formats when
    zerolog's console writer can decode the event in [p]. When it cannot,
    the write is refused: the count is 0, the error is the decoder's, and
    neither the writer nor anything else changes. *)
Theorem buffered_write_result {C : Console} (bw : BufferedWriter)
    (p : string) (b : Buffer) (w : World) :
  snd (Buffer_Write p b w) = (len p, None)
  /\ snd (BufferedWriter_Write bw p w) =
       match writer (bw_writer bw) with
       | Passthrough => (len p, None)
       | ZerologConsole style nc =>
           match console_render style nc p with
           | inr _ => (len p, None)
           | inl e => (0%Z, Some ("cannot decode event: " +:+ e))
           end
       end
  /\ match writer (bw_writer bw) with
     | Passthrough => True
     | ZerologConsole style nc =>
         match console_render style nc p with
         | inr _ => True
         | inl _ => fst (BufferedWriter_Write bw p w) = (bw, w)
         end
     end
  /\ (forall nc, snd (BufferedWriter_Write (NewBufferedWriter JSON nc) p w)
                 = (len p, None))
  /\ Buffer_Write (LF +:+ LF +:+ LF) b
       (with_logger (with_formatting JSON true (_logger w)) w)
     = (b, (3%Z, None)).
Proof.
  split; [reflexivity |]. split; [| split; [| split]].
  - unfold BufferedWriter_Write, ConsoleWriter_Write.
    destruct (writer (bw_writer bw)) as [style nc |].
    + destruct (console_render style nc p) as [e | line]; [reflexivity |].
      pose proof (Output_Write_result (output (bw_writer bw)) line w) as R.
      destruct (Output_Write (output (bw_writer bw)) line w)
        as [[out w'] [n err]].
      simpl in *. congruence.
    + pose proof (Output_Write_result (output (bw_writer bw)) p w) as R.
      destruct (Output_Write (output (bw_writer bw)) p w) as [[out w'] r].
      exact R.
  - unfold BufferedWriter_Write, ConsoleWriter_Write.
    destruct (writer (bw_writer bw)) as [style nc |]; [| exact I].
    destruct (console_render style nc p) as [e | line]; [| exact I].
    now destruct bw.
  - intros nc. reflexivity.
  - rewrite Buffer_Write_eq. simpl. now rewrite app_nil_r.
Qed.

(** A buffering writer in the [Default] format, given a line that is no
    event of zerolog: the write reports no byte written and an error, and
    nothing is captured. *)
Lemma buffered_write_refused_counterexample :
  snd (@BufferedWriter_Write brace_console (NewBufferedWriter Default false)
         "plain" (start InfoLevel 0%Z))
    = (0%Z, Some "cannot decode event: invalid character")
  /\ snd (@BufferedWriter_Write brace_console (NewBufferedWriter Default false)
            "plain" (start InfoLevel 0%Z))
     <> (len "plain", None)
  /\ BufferedWriter_Buffer
       (fst (fst (@BufferedWriter_Write brace_console
                    (NewBufferedWriter Default false) "plain"
                    (start InfoLevel 0%Z))))
     = [].
Proof.
  split; [reflexivity |]. split; [discriminate | reflexivity].
Qed.

(** ** What a write leaves alone *)

Lemma config_inv (w w' : World) :
  config w' = config w ->
  _logger w' = _logger w /\ _suppressExit w' = _suppressExit w /\
  gLevel w' = gLevel w /\ exited w' = exited w /\ clock w' = clock w /\
  map formatting (heap w') = map formatting (heap w).
Proof. unfold config. intros H. injection H. intuition. Qed.

Lemma insert_same_formatting (h : list WriterObj) (a : loc) (o o' : WriterObj) :
  h !! a = Some o -> formatting o' = formatting o ->
  map formatting (<[a := o']> h) = map formatting h.
Proof.
  intros Ha Hf.
  change (formatting <$> <[a := o']> h = formatting <$> h).
  rewrite list_fmap_insert, Hf. apply list_insert_id.
  now rewrite list_lookup_fmap, Ha.
Qed.

Section Frames.
Context {E : Env} {C : Console}.

Lemma Output_Write_frame (out : Output) (p : string) (w : World) :
  let w' := snd (fst (Output_Write out p w)) in
  config w' = config w /\ sunk w' = sunk w /\ heap w' = heap w.
Proof. destruct out; simpl; auto. Qed.

Lemma ConsoleWriter_Write_frame (c : ConsoleWriter) (p : string) (w : World) :
  let c' := fst (fst (ConsoleWriter_Write c p w)) in
  let w' := snd (fst (ConsoleWriter_Write c p w)) in
  config w' = config w /\ sunk w' = sunk w /\ heap w' = heap w /\
  cw_format c' = cw_format c /\ cw_noColor c' = cw_noColor c.
Proof.
  unfold ConsoleWriter_Write. destruct (writer c) as [style nc |].
  - destruct (console_render style nc p) as [e | line]; simpl; [auto 6 |].
    pose proof (Output_Write_frame (output c) line w) as F.
    destruct (Output_Write (output c) line w) as [[out w'] [n err]].
    simpl in *. intuition.
  - pose proof (Output_Write_frame (output c) p w) as F.
    destruct (Output_Write (output c) p w) as [[out w'] r].
    simpl in *. intuition.
Qed.

Lemma Writer_Write_frame (a : loc) (p : string) (w : World) :
  let w' := fst (Writer_Write a p w) in
  config w' = config w /\ sunk w' = sunk w.
Proof.
  unfold Writer_Write. destruct (heap w !! a) as [[c | b] |] eqn:Ha; simpl.
  - pose proof (ConsoleWriter_Write_frame c p w) as F.
    destruct (ConsoleWriter_Write c p w) as [[c' w'] r]. simpl in *.
    destruct F as (Hc & Hs & Hh & Hf & Hn). split; [| exact Hs].
    apply config_inv in Hc as (? & ? & ? & ? & ? & ?).
    unfold config. simpl. rewrite Hh.
    rewrite (insert_same_formatting (heap w) a (CW c) (CW c')); try assumption.
    + congruence.
    + simpl. congruence.
  - unfold BufferedWriter_Write.
    pose proof (ConsoleWriter_Write_frame (bw_writer b) p w) as F.
    destruct (ConsoleWriter_Write (bw_writer b) p w) as [[c' w'] r].
    simpl in *.
    destruct F as (Hc & Hs & Hh & Hf & Hn). split; [| exact Hs].
    apply config_inv in Hc as (? & ? & ? & ? & ? & ?).
    unfold config. simpl. rewrite Hh.
    rewrite (insert_same_formatting (heap w) a (BW b) (BW {| bw_writer := c' |}));
      try assumption.
    + congruence.
    + simpl. congruence.
  - auto.
Qed.

(** What the sinks receive depends on the state only through its levels,
    its clock and the formats of its writers. *)
Lemma sink_entries_ext (w w' : World) (ws : list loc) (lvl : Level)
    (e : option error) (m : string) :
  clock w' = clock w ->
  map formatting (heap w') = map formatting (heap w) ->
  sink_entries w' ws lvl e m = sink_entries w ws lvl e m.
Proof.
  intros Hc Hh. unfold sink_entries. apply flat_map_ext. intros a.
  assert (Ha : formatting <$> heap w' !! a = formatting <$> heap w !! a).
  { change (formatting <$> heap w' = formatting <$> heap w) in Hh.
    rewrite <- !list_lookup_fmap. now rewrite Hh. }
  rewrite Hc.
  destruct (heap w' !! a) as [o' |], (heap w !! a) as [o |];
    simpl in Ha; try discriminate; [| reflexivity].
  unfold sink_entry. injection Ha as ->. reflexivity.
Qed.

Lemma fanout_ext (w w' : World) (l l' : Logger) (lvl : Level)
    (e : option error) (m : string) :
  gLevel w' = gLevel w -> clock w' = clock w ->
  map formatting (heap w') = map formatting (heap w) ->
  writers l' = writers l ->
  fanout w' l' lvl e m = fanout w l lvl e m.
Proof.
  intros Hg Hc Hh Hw. unfold fanout. rewrite Hg, Hw.
  destruct (should (gLevel w) lvl); [| reflexivity].
  now apply sink_entries_ext.
Qed.

Lemma sink_write_frame (lvl : Level) (e : option error) (m : string)
    (w : World) (a : loc) :
  let w' := sink_write lvl e m w a in
  config w' = config w /\
  sunk w' = sunk w ++ sink_entries w [a] lvl e m.
Proof.
  unfold sink_write, sink_entries. simpl.
  destruct (heap w !! a) as [o |] eqn:Ha; simpl.
  - destruct (Writer_Write_frame a (encode lvl (clock w) m e) w) as [Hc Hs].
    split; [exact Hc |]. now rewrite Hs.
  - split; [reflexivity | now rewrite app_nil_r].
Qed.

Lemma sink_writes_frame (lvl : Level) (e : option error) (m : string)
    (ws : list loc) (w : World) :
  let w' := foldl (sink_write lvl e m) w ws in
  config w' = config w /\
  sunk w' = sunk w ++ sink_entries w ws lvl e m.
Proof.
  revert w. induction ws as [| a ws IH]; intros w; simpl.
  - split; [reflexivity | now rewrite app_nil_r].
  - destruct (sink_write_frame lvl e m w a) as [Hc Hs].
    destruct (IH (sink_write lvl e m w a)) as [Hc' Hs'].
    split; [congruence |]. rewrite Hs', Hs.
    apply config_inv in Hc as (_ & _ & _ & _ & Hclock & Hheap).
    rewrite (sink_entries_ext w _ ws lvl e m Hclock Hheap).
    unfold sink_entries. simpl. now rewrite <- app_assoc, app_nil_r.
Qed.

(** An event given to the handler changes nothing but the destinations,
    and the sinks receive its fan-out. *)
Lemma WithLevel_Msg_frame (l : Logger) (lvl : Level) (e : option error)
    (m : string) (w : World) :
  let w' := WithLevel_Msg l lvl e m w in
  config w' = config w /\ sunk w' = sunk w ++ fanout w l lvl e m.
Proof.
  unfold WithLevel_Msg, fanout. destruct (should (gLevel w) lvl).
  - apply sink_writes_frame.
  - split; [reflexivity | now rewrite app_nil_r].
Qed.

End Frames.

(** ** Hold and Flush (C2) *)

Section HoldFlush.
Context {E : Env} {C : Console}.

Lemma with_buffer_same (l : Logger) : with_buffer (buffer l) l = l.
Proof. now destruct l. Qed.

Lemma call_held (w : World) (c : Call) :
  hold (_logger w) = true ->
  call w c =
    with_logger (with_buffer (buffer (_logger w) ++ [queued c]) (_logger w))
      (with_clock (call_at c) w).
Proof. intros H. unfold call, log, queued. simpl. now rewrite H. Qed.

(** While the logger holds, calls only grow the queue. *)
Lemma calls_held (cs : list Call) (w : World) :
  hold (_logger w) = true ->
  let w' := foldl call w cs in
  _logger w' = with_buffer (buffer (_logger w) ++ map queued cs) (_logger w)
  /\ sunk w' = sunk w /\ stdout w' = stdout w /\ heap w' = heap w
  /\ gLevel w' = gLevel w /\ _suppressExit w' = _suppressExit w
  /\ exited w' = exited w.
Proof.
  revert w. induction cs as [| c cs IH]; intros w H; simpl.
  - rewrite app_nil_r, with_buffer_same. auto 10.
  - rewrite (call_held w c H).
    match goal with |- context [foldl call ?w1 cs] => specialize (IH w1) end.
    simpl in IH. destruct (IH H) as (Hl & Hs & Ho & Hh & Hg & Hx & He).
    rewrite Hl. unfold with_buffer. simpl. rewrite <- app_assoc. simpl.
    auto 10.
Qed.

Lemma log_live (level : Level) (msg : string) (err : option error)
    (v : list Arg) (w : World) :
  hold (_logger w) = false ->
  log level msg err v w =
    WithLevel_Msg (_logger w) level err
      (match v with [] => msg | _ :: _ => Sprintf msg v end) w.
Proof. intros H. unfold log. now rewrite H. Qed.

(** With the hold lifted, replaying queued records emits them in order. *)
Lemma replay_frame (ms : list Message) (w : World) :
  hold (_logger w) = false ->
  let w' := foldl (fun (w : World) (l : Message) =>
                     log (msg_Level l) (msg_Message l) (msg_err l) [] w)
                  w ms in
  config w' = config w /\
  sunk w' = sunk w ++
            flat_map (fun l : Message =>
                        fanout w (_logger w) (msg_Level l) (msg_err l)
                          (msg_Message l)) ms.
Proof.
  revert w. induction ms as [| l ms IH]; intros w H; simpl.
  - split; [reflexivity | now rewrite app_nil_r].
  - rewrite (log_live _ _ _ [] w H).
    destruct (WithLevel_Msg_frame (_logger w) (msg_Level l) (msg_err l)
                (msg_Message l) w) as [Hc Hs].
    set (w1 := WithLevel_Msg (_logger w) (msg_Level l) (msg_err l)
                 (msg_Message l) w) in *.
    pose proof (config_inv _ _ Hc) as (Hl & _ & Hg & _ & Hk & Hh).
    assert (H1 : hold (_logger w1) = false) by now rewrite Hl.
    destruct (IH w1 H1) as [Hc' Hs'].
    split; [congruence |].
    rewrite Hs', Hs, <- app_assoc. f_equal. f_equal.
    apply flat_map_ext. intros l'. apply fanout_ext; congruence.
Qed.

(** [Flush] lifts the hold, announces a non-empty queue at the debug level,
    replays the queue in order through the handler and empties it. *)
Lemma Flush_frame (w : World) :
  let w' := Flush w in
  _logger w' = with_buffer [] (with_hold false (_logger w))
  /\ gLevel w' = gLevel w /\ _suppressExit w' = _suppressExit w
  /\ exited w' = exited w /\ clock w' = clock w
  /\ map formatting (heap w') = map formatting (heap w)
  /\ sunk w' =
       sunk w ++
       match buffer (_logger w) with
       | [] => []
       | _ :: _ =>
           fanout w (_logger w) DebugLevel None
             (Sprintf "Flushing buffer with %d log(s)"
                [ArgInt (Z.of_nat (length (buffer (_logger w))))])
       end ++
       flat_map (fun l : Message =>
                   fanout w (_logger w) (msg_Level l) (msg_err l)
                     (msg_Message l))
                (buffer (_logger w)).
Proof.
  unfold Flush. cbv zeta.
  set (w0 := with_logger (with_hold false (_logger w)) w).
  assert (H0 : hold (_logger w0) = false) by reflexivity.
  assert (B0 : buffer (_logger w0) = buffer (_logger w)) by reflexivity.
  rewrite B0.
  destruct (buffer (_logger w)) as [| l ms] eqn:B.
  - simpl. rewrite app_nil_r. auto 10.
  - replace (0 <? Z.of_nat (length (l :: ms)))%Z with true
      by (symmetry; apply Z.ltb_lt; simpl; lia).
    unfold Debugf. rewrite (log_live _ _ _ _ w0 H0).
    destruct (WithLevel_Msg_frame (_logger w0) DebugLevel None
                (Sprintf "Flushing buffer with %d log(s)"
                   [ArgInt (Z.of_nat (length (l :: ms)))]) w0) as [Hc Hs].
    set (w1 := WithLevel_Msg (_logger w0) DebugLevel None _ w0) in *.
    pose proof (config_inv _ _ Hc) as (Hl & Hx & Hg & He & Hk & Hh).
    assert (H1 : hold (_logger w1) = false) by now rewrite Hl.
    destruct (replay_frame (buffer (_logger w1)) w1 H1) as [Hc' Hs'].
    set (w2 := foldl _ w1 (buffer (_logger w1))) in *.
    pose proof (config_inv _ _ Hc') as (Hl' & Hx' & Hg' & He' & Hk' & Hh').
    assert (G0 : gLevel w0 = gLevel w) by reflexivity.
    assert (X0 : _suppressExit w0 = _suppressExit w) by reflexivity.
    assert (E0 : exited w0 = exited w) by reflexivity.
    assert (K0 : clock w0 = clock w) by reflexivity.
    assert (F0 : map formatting (heap w0) = map formatting (heap w))
      by reflexivity.
    assert (S0 : sunk w0 = sunk w) by reflexivity.
    assert (W0 : writers (_logger w0) = writers (_logger w)) by reflexivity.
    cbn [_logger with_logger gLevel _suppressExit exited clock heap sunk].
    rewrite Hl', Hl.
    repeat (split; [first [reflexivity | congruence] |]).
    rewrite Hs', Hs, Hl, B0, S0, <- app_assoc. f_equal.
    f_equal; try (apply fanout_ext; congruence).
    apply flat_map_ext. intros l'. apply fanout_ext; congruence.
Qed.

End HoldFlush.

Lemma flat_map_map {A B D : Type} (f : B -> list D) (g : A -> B)
    (xs : list A) :
  flat_map f (map g xs) = flat_map (fun x => f (g x)) xs.
Proof. induction xs as [| x xs IH]; simpl; [reflexivity | now rewrite IH]. Qed.

(** C2 (amended). From a state with an empty queue: after [Hold], N leveled
    calls reach no sink and queue one record each, in call order. A
    following [Flush], at any later instant [t], lifts the hold, hands the
    handler first, when N > 0, a debug-level record
    "Flushing buffer with N log(s)" and then the N records in their order,
    each through the normal emission path (zerolog's level filter, then one
    write per sink), and empties the queue. [Flush] on the empty queue only
    clears the hold flag: nothing is replayed and nothing is emitted. *)
Theorem hold_queues_flush_replays {E : Env} {C : Console} (w : World)
    (cs : list Call) (t : Time) :
  buffer (_logger w) = [] ->
  let held := foldl call (Hold w) cs in
  let flushed := Flush (with_clock t held) in
  sunk held = sunk w /\ stdout held = stdout w /\ heap held = heap w
  /\ hold (_logger held) = true
  /\ buffer (_logger held) = map queued cs
  /\ length (buffer (_logger held)) = length cs
  /\ hold (_logger flushed) = false
  /\ buffer (_logger flushed) = []
  /\ sunk flushed =
       sunk w ++
       match cs with
       | [] => []
       | _ :: _ =>
           fanout (with_clock t held) (_logger held) DebugLevel None
             (Sprintf "Flushing buffer with %d log(s)"
                [ArgInt (Z.of_nat (length cs))])
       end ++
       flat_map (fun c : Call =>
                   fanout (with_clock t held) (_logger held) (call_level c)
                     (call_err c) (msg_Message (queued c)))
                cs
  /\ Flush w = with_logger (with_hold false (_logger w)) w.
Proof.
  intros Hempty held flushed.
  assert (Hh : hold (_logger (Hold w)) = true) by reflexivity.
  destruct (calls_held cs (Hold w) Hh) as (Hl & Hs & Ho & Hp & Hg & Hx & He).
  fold held in Hl, Hs, Ho, Hp, Hg, Hx, He.
  assert (Hb : buffer (_logger held) = map queued cs).
  { rewrite Hl. simpl. now rewrite Hempty. }
  destruct (Flush_frame (with_clock t held)) as (Fl & _ & _ & _ & _ & _ & Fs).
  fold flushed in Fl, Fs.
  cbn [_logger with_clock sunk] in Fl, Fs.
  split; [exact Hs |]. split; [exact Ho |]. split; [exact Hp |].
  split; [now rewrite Hl |]. split; [exact Hb |].
  split; [now rewrite Hb, length_map |].
  split; [now rewrite Fl |]. split; [now rewrite Fl |].
  split.
  - rewrite Fs, Hs, Hb, length_map, flat_map_map. simpl sunk.
    destruct cs; reflexivity.
  - unfold Flush. cbv zeta. simpl. rewrite Hempty. simpl.
    unfold with_logger, with_buffer, with_hold. simpl. now rewrite Hempty.
Qed.

(** One info call held and flushed from the initial state. *)
Lemma hold_queues_flush_replays_witness :
  buffer (_logger (start InfoLevel 0%Z)) = []
  /\ buffer (_logger (Flush (E := spec_env) (C := brace_console)
       (with_clock 2%Z
          (foldl (call (E := spec_env) (C := brace_console))
             (Hold (start InfoLevel 0%Z))
             [{| call_at := 1%Z; call_level := InfoLevel; call_msg := "a";
                 call_err := None; call_v := [] |}])))) = [].
Proof.
  split; [reflexivity |].
  apply (hold_queues_flush_replays (E := spec_env) (C := brace_console)
           (start InfoLevel 0%Z)
           [{| call_at := 1%Z; call_level := InfoLevel; call_msg := "a";
               call_err := None; call_v := [] |}] 2%Z).
  reflexivity.
Defined.

(** C2 as stated fails: with the global level at debug, one held info call
    and a flush put two records at the sink, the announcement of the flush
    and the call, not the one record of the call and nothing else. *)
Lemma flush_announces_counterexample :
  map sw_message
    (sunk (run (E := spec_env) (C := brace_console)
             [OpHold; OpLog InfoLevel "a" None []; OpFlush]
             (start DebugLevel 0%Z)))
  = ["Flushing buffer with 1 log(s)"; "a"]
  /\ map sw_message
       (sunk (run (E := spec_env) (C := brace_console)
                [OpHold; OpLog InfoLevel "a" None []; OpFlush]
                (start DebugLevel 0%Z)))
     <> ["a"].
Proof. split; [reflexivity | discriminate]. Qed.

(** ** SetFormatting and Bypass (C7) *)

Lemma ConsoleWriter_SetFormatting_fields (c : ConsoleWriter) (f : Format)
    (nc : bool) :
  cw_format (ConsoleWriter_SetFormatting c f nc) = f /\
  cw_noColor (ConsoleWriter_SetFormatting c f nc) = nc.
Proof.
  unfold ConsoleWriter_SetFormatting.
  destruct (Z.eqb_spec (cw_format c) f) as [Hf | Hf]; simpl; [| now split].
  destruct (cw_noColor c) eqn:Hc, nc; simpl; auto.
Qed.

Lemma ConsoleWriter_SetFormatting_idem (c : ConsoleWriter) (f : Format)
    (nc : bool) :
  ConsoleWriter_SetFormatting (ConsoleWriter_SetFormatting c f nc) f nc
  = ConsoleWriter_SetFormatting c f nc.
Proof.
  destruct (ConsoleWriter_SetFormatting_fields c f nc) as [F1 F2].
  generalize dependent (ConsoleWriter_SetFormatting c f nc). intros c' F1 F2.
  unfold ConsoleWriter_SetFormatting.
  now rewrite F1, F2, Z.eqb_refl, eqb_reflx.
Qed.

Lemma SetFormatting_formatting (f : Format) (nc : bool) (o : WriterObj) :
  formatting (WriterObj_SetFormatting f nc o) = (f, nc).
Proof.
  destruct o as [c | b]; simpl.
  - destruct (ConsoleWriter_SetFormatting_fields c f nc) as [-> ->].
    reflexivity.
  - destruct (ConsoleWriter_SetFormatting_fields (bw_writer b) f nc)
      as [-> ->].
    reflexivity.
Qed.

Lemma SetFormatting_idem (f : Format) (nc : bool) (o : WriterObj) :
  WriterObj_SetFormatting f nc (WriterObj_SetFormatting f nc o)
  = WriterObj_SetFormatting f nc o.
Proof.
  destruct o as [c | b]; simpl; unfold BufferedWriter_SetFormatting; simpl;
    now rewrite ConsoleWriter_SetFormatting_idem.
Qed.

(** Altering every address of [ws] with an idempotent [g]. *)
Lemma alter_all_lookup {A : Type} (g : A -> A) (ws : list nat) (h : list A)
    (a : nat) :
  (forall x, g (g x) = g x) ->
  foldl (fun (h : list A) (a : nat) => alter g a h) h ws !! a
  = if bool_decide (a ∈ ws) then g <$> h !! a else h !! a.
Proof.
  intros Hg. revert h. induction ws as [| x ws IH]; intros h; simpl.
  - reflexivity.
  - rewrite IH. destruct (decide (a = x)) as [-> | Hne].
    + rewrite list_lookup_alter_eq.
      rewrite (bool_decide_eq_true_2 (x ∈ x :: ws)) by apply list_elem_of_here.
      destruct (bool_decide (x ∈ ws)); [| reflexivity].
      destruct (h !! x); simpl; [now rewrite Hg | reflexivity].
    + rewrite list_lookup_alter_ne by congruence.
      assert (Hd : bool_decide (a ∈ x :: ws) = bool_decide (a ∈ ws)).
      { apply bool_decide_ext. rewrite elem_of_cons. tauto. }
      now rewrite Hd.
Qed.

Lemma flat_map_ext_elem {A B : Type} (f g : A -> list B) (xs : list A) :
  (forall x, x ∈ xs -> f x = g x) -> flat_map f xs = flat_map g xs.
Proof.
  induction xs as [| x xs IH]; intros H; simpl; [reflexivity |].
  rewrite (H x) by apply list_elem_of_here.
  rewrite IH; [reflexivity |].
  intros y Hy. apply H. now apply list_elem_of_further.
Qed.

Section Formatting.
Context {E : Env} {C : Console}.

Lemma Writer_SetFormatting_all (f : Format) (nc : bool) (ws : list loc)
    (w : World) :
  foldl (Writer_SetFormatting f nc) w ws
  = with_heap (foldl (fun (h : list WriterObj) (a : loc) =>
                        alter (WriterObj_SetFormatting f nc) a h)
                     (heap w) ws) w.
Proof.
  revert w. induction ws as [| a ws IH]; intros w; simpl.
  - now destruct w.
  - now rewrite IH.
Qed.

Lemma SetFormatting_frame (f : Format) (nc : bool) (w : World) :
  let w' := SetFormatting f nc w in
  _logger w' = with_formatting f nc (_logger w)
  /\ _suppressExit w' = _suppressExit w /\ gLevel w' = gLevel w
  /\ exited w' = exited w /\ clock w' = clock w /\ sunk w' = sunk w
  /\ stdout w' = stdout w
  /\ heap w' = foldl (fun (h : list WriterObj) (a : loc) =>
                        alter (WriterObj_SetFormatting f nc) a h)
                     (heap w) (writers (_logger w)).
Proof.
  unfold SetFormatting. cbv zeta. rewrite Writer_SetFormatting_all.
  simpl. auto 10.
Qed.

(** Once every writer of [ws] has been told to use [f] and [nc], an event
    fanned out to [ws] is rendered with [f] and [nc] at each of them. *)
Lemma sink_entries_after_SetFormatting (f : Format) (nc : bool) (w w' : World)
    (ws : list loc) (lvl : Level) (e : option error) (m : string) :
  clock w' = clock w ->
  map formatting (heap w')
  = map formatting (foldl (fun (h : list WriterObj) (a : loc) =>
                             alter (WriterObj_SetFormatting f nc) a h)
                          (heap w) ws) ->
  sink_entries w' ws lvl e m
  = flat_map (fun a : loc =>
                match heap w !! a with
                | Some _ =>
                    [{| sw_writer := a; sw_format := f; sw_noColor := nc;
                        sw_level := lvl; sw_time := clock w; sw_message := m;
                        sw_error := e |}]
                | None => []
                end) ws.
Proof.
  intros Hc Hh. unfold sink_entries. apply flat_map_ext_elem. intros a Ha.
  change (formatting <$> heap w'
          = formatting <$>
              foldl (fun (h : list WriterObj) (a : loc) =>
                       alter (WriterObj_SetFormatting f nc) a h)
                    (heap w) ws) in Hh.
  assert (L : formatting <$> heap w' !! a
              = (fun _ => (f, nc)) <$> heap w !! a).
  { rewrite <- list_lookup_fmap, Hh, list_lookup_fmap.
    rewrite (alter_all_lookup _ ws (heap w) a (SetFormatting_idem f nc)).
    rewrite bool_decide_eq_true_2 by exact Ha.
    destruct (heap w !! a); simpl; [| reflexivity].
    now rewrite SetFormatting_formatting. }
  destruct (heap w' !! a) as [o' |], (heap w !! a) as [o |];
    simpl in L; try discriminate; [| reflexivity].
  unfold sink_entry. injection L as ->. simpl. now rewrite Hc.
Qed.

End Formatting.

Lemma with_formatting_restore (f : Format) (nc : bool) (l : Logger) :
  with_formatting (format l) (noColor l) (with_formatting f nc l) = l.
Proof. now destruct l. Qed.

(** [Bypass] restores the logger and the global level; in between, the
    handler is given one info record while every sink renders in the
    [Default] format without color and the global level is info. *)
Lemma Bypass_frame {E : Env} {C : Console} (msg : string) (w : World) :
  let w' := Bypass msg w in
  _logger w' = _logger w
  /\ gLevel w' = gLevel w
  /\ _suppressExit w' = _suppressExit w
  /\ exited w' = exited w
  /\ clock w' = clock w
  /\ sunk w' =
       sunk w ++
       if should InfoLevel InfoLevel then
         flat_map (fun a : loc =>
                     match heap w !! a with
                     | Some _ =>
                         [{| sw_writer := a; sw_format := Default;
                             sw_noColor := true; sw_level := InfoLevel;
                             sw_time := clock w; sw_message := msg;
                             sw_error := None |}]
                     | None => []
                     end)
                  (writers (_logger w))
       else [].
Proof.
  unfold Bypass. cbv zeta.
  destruct (SetFormatting_frame Default true w)
    as (L1 & X1 & G1 & E1 & K1 & S1 & _ & H1).
  set (w1 := SetFormatting Default true w) in *.
  set (w2 := zerolog_SetGlobalLevel InfoLevel w1).
  destruct (WithLevel_Msg_frame (_logger w2) InfoLevel None msg w2)
    as [C3 S3].
  set (w3 := WithLevel_Msg (_logger w2) InfoLevel None msg w2) in *.
  apply config_inv in C3 as (L3 & X3 & G3 & E3 & K3 & H3).
  destruct (SetFormatting_frame (format (_logger w)) (noColor (_logger w)) w3)
    as (L4 & X4 & G4 & E4 & K4 & S4 & _ & _).
  set (w4 := SetFormatting (format (_logger w)) (noColor (_logger w)) w3)
    in *.
  assert (L2 : _logger w2 = _logger w1) by reflexivity.
  assert (X2 : _suppressExit w2 = _suppressExit w1) by reflexivity.
  assert (E2 : exited w2 = exited w1) by reflexivity.
  assert (K2 : clock w2 = clock w1) by reflexivity.
  assert (S2 : sunk w2 = sunk w1) by reflexivity.
  assert (H2 : heap w2 = heap w1) by reflexivity.
  assert (G2 : gLevel w2 = InfoLevel) by reflexivity.
  set (w5 := zerolog_SetGlobalLevel (gLevel w) w4).
  assert (L5 : _logger w5 = _logger w4) by reflexivity.
  assert (X5 : _suppressExit w5 = _suppressExit w4) by reflexivity.
  assert (E5 : exited w5 = exited w4) by reflexivity.
  assert (K5 : clock w5 = clock w4) by reflexivity.
  assert (S5 : sunk w5 = sunk w4) by reflexivity.
  assert (G5 : gLevel w5 = gLevel w) by reflexivity.
  split.
  { rewrite L5, L4, L3, L2, L1. apply with_formatting_restore. }
  split; [exact G5 |].
  split; [congruence |]. split; [congruence |]. split; [congruence |].
  rewrite S5, S4, S3, S2, S1. f_equal.
  unfold fanout. rewrite G2, L2, L1. cbn [writers with_formatting].
  destruct (should InfoLevel InfoLevel); [| reflexivity].
  apply sink_entries_after_SetFormatting; [congruence |].
  now rewrite H2, H1.
Qed.

(** C7. For every prior state of the logger, [Bypass] hands the backend one
    info record that every sink renders in the [Default] format without
    color, whether or not the logger holds and whatever the global level
    is; afterwards the logger (its format, color flag, list of sinks,
    queue and hold flag) and the global level are exactly what they were.
    The backend is assumed to emit info records at the info level. *)
Theorem Bypass_emits_and_restores {E : Env} {C : Console} (msg : string)
    (w : World) :
  should InfoLevel InfoLevel = true ->
  let w' := Bypass msg w in
  _logger w' = _logger w
  /\ gLevel w' = gLevel w
  /\ _suppressExit w' = _suppressExit w
  /\ exited w' = exited w
  /\ clock w' = clock w
  /\ sunk w' =
       sunk w ++
       flat_map (fun a : loc =>
                   match heap w !! a with
                   | Some _ =>
                       [{| sw_writer := a; sw_format := Default;
                           sw_noColor := true; sw_level := InfoLevel;
                           sw_time := clock w; sw_message := msg;
                           sw_error := None |}]
                   | None => []
                   end)
                (writers (_logger w)).
Proof.
  intros Hinfo. pose proof (Bypass_frame msg w) as F. cbv zeta in *.
  now rewrite Hinfo in F.
Qed.

(** [Bypass] on the initial logger while it holds, the global level at
    warn. *)
Lemma Bypass_emits_and_restores_witness :
  should (Env := spec_env) InfoLevel InfoLevel = true
  /\ _logger (Bypass (E := spec_env) (C := brace_console) "Direct message"
                (Hold (start WarnLevel 0%Z)))
     = _logger (Hold (start WarnLevel 0%Z)).
Proof.
  split; [reflexivity |].
  apply (Bypass_emits_and_restores (E := spec_env) (C := brace_console)
           "Direct message" (Hold (start WarnLevel 0%Z))).
  reflexivity.
Defined.

(** ** Fatal calls (C3) *)

Section FatalCalls.
Context {E : Env} {C : Console}.

(** A fatal event followed by the exit, as [Fatal], [FatalE] and [Fatalf]
    do it. *)
Lemma emit_then_exit (e : option error) (m : string) (w : World) :
  let w1 := WithLevel_Msg (_logger w) FatalLevel e m w in
  let w' := if negb (_suppressExit w1) then os_Exit 1 w1 else w1 in
  _logger w' = _logger w
  /\ gLevel w' = gLevel w
  /\ sunk w' = sunk w ++ fanout w (_logger w) FatalLevel e m
  /\ exited w' = if _suppressExit w then exited w else Some 1%Z.
Proof.
  cbv zeta.
  destruct (WithLevel_Msg_frame (_logger w) FatalLevel e m w) as [Hc Hs].
  set (w1 := WithLevel_Msg (_logger w) FatalLevel e m w) in *.
  apply config_inv in Hc as (Hl & Hx & Hg & He & _ & _).
  rewrite Hx. destruct (_suppressExit w); simpl; auto.
Qed.


End FatalCalls.




(** ** The queue and the hold flag (C1) *)

Section Queue.
Context {E : Env} {C : Console}.

Lemma queue_invariant_frame (w w' : World) :
  buffer (_logger w') = buffer (_logger w) ->
  hold (_logger w') = hold (_logger w) ->
  queue_invariant w -> queue_invariant w'.
Proof. unfold queue_invariant. intros -> ->. auto. Qed.

(** Every call that keeps the logger in place keeps the invariant. *)
Lemma queue_invariant_step (op : Op) (w : World) :
  reinitialises op = false ->
  queue_invariant w -> queue_invariant (step op w).
Proof.
  intros Hop Hinv.
  destruct op as [| | lvl msg err v | msg | e msg | fmt v | msg | f
                 | f nc ws | f nc | l | a | a | old new | f nc | f nc | b | t];
    try discriminate Hop; simpl.
  - intros _. reflexivity.
  - destruct (Flush_frame w) as (Hl & _). intros Hb. rewrite Hl in Hb.
    now contradiction Hb.
  - unfold log. destruct (hold (_logger w)) eqn:Hh.
    + intros _. simpl. exact Hh.
    + destruct (WithLevel_Msg_frame (_logger w) lvl err
                  (match v with [] => msg | _ :: _ => Sprintf msg v end) w)
        as [Hc _].
      apply config_inv in Hc as (Hl & _).
      apply (queue_invariant_frame w); [now rewrite Hl .. | exact Hinv].
  - destruct (emit_then_exit None msg w) as (Hl & _).
    apply (queue_invariant_frame w); [unfold Fatal; now rewrite Hl .. |].
    exact Hinv.
  - destruct (emit_then_exit e msg w) as (Hl & _).
    apply (queue_invariant_frame w); [unfold FatalE; now rewrite Hl .. |].
    exact Hinv.
  - destruct (emit_then_exit None (Sprintf fmt v) w) as (Hl & _).
    apply (queue_invariant_frame w); [unfold Fatalf; now rewrite Hl .. |].
    exact Hinv.
  - destruct (Bypass_frame msg w) as (Hl & _).
    apply (queue_invariant_frame w); [now rewrite Hl .. | exact Hinv].
  - destruct (SetFormatting_frame f nc w) as (Hl & _).
    apply (queue_invariant_frame w); [now rewrite Hl .. | exact Hinv].
  - exact Hinv.
  - exact Hinv.
  - exact Hinv.
  - exact Hinv.
  - exact Hinv.
Qed.

(** [InitLoggerWithWriter] carries the queue over to the new logger, whose
    hold flag is the zero value. *)
Lemma InitLoggerWithWriter_logger (f : Format) (nc : bool) (ws : list loc)
    (w : World) :
  hold (_logger (InitLoggerWithWriter f nc ws w)) = false /\
  buffer (_logger (InitLoggerWithWriter f nc ws w)) = buffer (_logger w).
Proof.
  unfold InitLoggerWithWriter, NewLogger. destruct ws; simpl; auto.
Qed.

End Queue.

(** C1, evaluated. The invariant does not survive reinitialisation:
    [InitLoggerWithWriter] (and with it [InitLogger], [AppendWriter],
    [RemoveWriter] and [UpdateWriter]) keeps the queue and resets the hold
    flag, so after [Hold], one info call and [InitLogger] the program is in
    a reachable state whose queue holds a record while the hold flag is
    false. *)
Theorem reinitialisation_breaks_queue_invariant :
  (forall (f : Format) (nc : bool) (ws : list loc) (w : World),
      hold (_logger (InitLoggerWithWriter f nc ws w)) = false /\
      buffer (_logger (InitLoggerWithWriter f nc ws w)) = buffer (_logger w))
  /\ reachable (E := spec_env) (C := brace_console)
       (run (E := spec_env) (C := brace_console)
          [OpHold; OpLog InfoLevel "x" None []; OpInitLogger Default]
          (start InfoLevel 0%Z))
  /\ map msg_Message
       (buffer (_logger (run (E := spec_env) (C := brace_console)
                           [OpHold; OpLog InfoLevel "x" None [];
                            OpInitLogger Default]
                           (start InfoLevel 0%Z)))) = ["x"]
  /\ hold (_logger (run (E := spec_env) (C := brace_console)
                      [OpHold; OpLog InfoLevel "x" None [];
                       OpInitLogger Default]
                      (start InfoLevel 0%Z))) = false
  /\ ~ queue_invariant
         (run (E := spec_env) (C := brace_console)
            [OpHold; OpLog InfoLevel "x" None []; OpInitLogger Default]
            (start InfoLevel 0%Z)).
Proof.
  split; [apply InitLoggerWithWriter_logger |].
  split; [now exists InfoLevel, 0%Z, [OpHold; OpLog InfoLevel "x" None [];
                                       OpInitLogger Default] |].
  split; [reflexivity |]. split; [reflexivity |].
  intros H. specialize (H ltac:(discriminate)). discriminate H.
Qed.

(** ** InitLogger (C4) *)

(** C4, evaluated. For every format [f], [InitLogger f] installs a single
    fresh console writer on the standard output, with the color-disabled
    flag set on the logger and on the writer: the colors are off, not on. *)
Theorem InitLogger_disables_color (f : Format) (w : World) :
  let w' := InitLogger f w in
  format (_logger w') = f
  /\ noColor (_logger w') = true
  /\ writers (_logger w') = [length (heap w)]
  /\ heap w' = heap w ++ [CW (NewConsoleWriter f true Stdout)]
  /\ heap w' !! length (heap w)
     = Some (CW {| cw_format := f; cw_noColor := true; output := Stdout;
                   writer := newWriter f true |}).
Proof.
  cbv zeta. unfold InitLogger, InitLoggerWithWriter, NewLogger. simpl.
  repeat split.
  rewrite lookup_app_r by lia. now rewrite Nat.sub_diag.
Qed.

(** ** Logger.Write (C5) *)

Section LoggerWrite.
Context {E : Env} {C : Console}.

Lemma Logger_Write_lines (l : Logger) (lines : list string) (w : World) :
  let w' := foldl (fun (w : World) (line : string) =>
                     if negb (line =? "") || (gLevel w =? Default)%Z
                     then WithLevel_Msg l (level l) None line w
                     else w)
                  w lines in
  config w' = config w /\
  sunk w' = sunk w ++
            flat_map (fun line : string => fanout w l (level l) None line)
              (List.filter (fun line : string =>
                              negb (line =? "") || (gLevel w =? Default)%Z)
                           lines).
Proof.
  revert w. induction lines as [| line lines IH]; intros w; simpl.
  - split; [reflexivity | now rewrite app_nil_r].
  - destruct (negb (line =? "") || (gLevel w =? Default)%Z) eqn:K.
    + destruct (WithLevel_Msg_frame l (level l) None line w) as [Hc Hs].
      set (w1 := WithLevel_Msg l (level l) None line w) in *.
      destruct (IH w1) as [Hc' Hs'].
      pose proof (config_inv _ _ Hc) as (_ & _ & Hg & _ & Hk & Hh).
      split; [congruence |].
      rewrite Hs', Hs, Hg. simpl. rewrite <- app_assoc. f_equal. f_equal.
      apply flat_map_ext. intros x. now apply fanout_ext.
    + apply IH.
Qed.

(** [Logger.Write] hands the handler the lines of [p], at the level of the
    logger; it keeps the empty ones exactly when zerolog's global level is
    0, and the format of the logger plays no part. *)
Lemma Logger_Write_frame (l : Logger) (p : string) (w : World) :
  snd (Logger_Write l p w) = (len p, None)
  /\ config (fst (Logger_Write l p w)) = config w
  /\ sunk (fst (Logger_Write l p w)) =
       sunk w ++
       flat_map (fun line : string => fanout w l (level l) None line)
         (List.filter (fun line : string =>
                         negb (line =? "") || (gLevel w =? Default)%Z)
                      (Split p newline)).
Proof.
  split; [reflexivity |]. unfold Logger_Write. simpl.
  apply Logger_Write_lines.
Qed.

End LoggerWrite.

(** C5, evaluated. [Logger.Write] splits its input on the line feeds, but
    which empty lines it drops is decided by zerolog's global level, not by
    the format: it emits the same records under every format of the logger,
    it emits the empty line of "a", two line feeds, "b" under the JSON
    format when the global level is debug, and it drops that line under the
    [Default] format when the global level is trace. *)
Theorem Logger_Write_empty_lines_follow_level :
  (forall (E : Env) (C : Console) (l : Logger) (f : Format) (nc : bool)
          (p : string) (w : World),
      Logger_Write (with_formatting f nc l) p w = Logger_Write l p w)
  /\ (forall (E : Env) (C : Console) (l : Logger) (p : string) (w : World),
        sunk (fst (Logger_Write l p w)) =
          sunk w ++
          flat_map (fun line : string => fanout w l (level l) None line)
            (List.filter (fun line : string =>
                            negb (line =? "") || (gLevel w =? 0)%Z)
                         (Split p newline)))
  /\ (let w := InitLogger JSON (start DebugLevel 0%Z) in
      format (_logger w) = JSON /\
      map sw_message
        (sunk (fst (Logger_Write (E := spec_env) (C := brace_console)
                      (_logger w) ("a" +:+ LF +:+ LF +:+ "b") w)))
      = ["a"; ""; "b"])
  /\ (let w := SetGlobalLevel TraceLevel (start DebugLevel 0%Z) in
      format (_logger w) = Default /\
      map sw_message
        (sunk (fst (Logger_Write (E := spec_env) (C := brace_console)
                      (_logger w) ("a" +:+ LF +:+ LF +:+ "b") w)))
      = ["a"; "b"]).
Proof.
  split; [| split; [| split; split; reflexivity]].
  - intros E C l f nc p w. reflexivity.
  - intros E C l p w. apply Logger_Write_frame.
Qed.

(** ** UnmarshalLog (C8) *)

(** [UnmarshalLog] by its three decoders, whatever they are: a message
    comes back when all three succeed, an error otherwise. *)
Lemma UnmarshalLog_cases {E : Env} {D : Codec} (bytes : string) :
  let decodes (m : Message) : Prop :=
    exists (raw : RawLog) (t : Time) (l : Level),
      json_Unmarshal bytes = inr raw
      /\ time_Parse "2006-01-02T15:04:05Z07:00" (raw_Time raw) = inr t
      /\ zerolog_ParseLevel (raw_Level raw) = inr l
      /\ m = {| msg_Level := l; msg_Time := t;
                msg_Message := raw_Message raw; msg_Error := raw_Error raw;
                msg_err := None |} in
  (forall m : Message, UnmarshalLog bytes = inr m <-> decodes m)
  /\ ((exists err : error, UnmarshalLog bytes = inl err)
      <-> ~ exists m : Message, decodes m).
Proof.
  cbv zeta. unfold UnmarshalLog, layout.
  destruct (json_Unmarshal bytes) as [e1 | raw].
  { split.
    - intros m. split; [discriminate |].
      intros (raw & t & l & H & _). discriminate H.
    - split; [| eauto]. intros _ (m & raw & t & l & H & _). discriminate H. }
  destruct (time_Parse "2006-01-02T15:04:05Z07:00" (raw_Time raw))
    as [e2 | t] eqn:Ht.
  { split.
    - intros m. split; [discriminate |].
      intros (raw' & t & l & H & H' & _). congruence.
    - split; [| eauto].
      intros _ (m & raw' & t & l & H & H' & _). congruence. }
  destruct (zerolog_ParseLevel (raw_Level raw)) as [e3 | l] eqn:Hl.
  { split.
    - intros m. split; [discriminate |].
      intros (raw' & t' & l & H & _ & H' & _). congruence.
    - split; [| eauto].
      intros _ (m & raw' & t' & l & H & _ & H' & _). congruence. }
  split.
  - intros m. split.
    + intros H. injection H as <-. exists raw, t, l. auto.
    + intros (raw' & t' & l' & H1 & H2 & H3 & ->).
      injection H1 as <-. congruence.
  - split.
    + intros [err H]. discriminate H.
    + intros H. exfalso. apply H. eexists. exists raw, t, l. eauto.
Qed.

(** *** json.Unmarshal into the placeholder *)

Lemma load_store (f g : Field) (s : string) (raw : RawLog) :
  load f (store g s raw) = if Field_eqb f g then s else load f raw.
Proof. destruct f, g; reflexivity. Qed.

(** The first type error stays. *)
Lemma decode_members_error (ms : list (string * json)) (raw : RawLog)
    (e : error) :
  exists raw', foldl decode_member (raw, Some e) ms = (raw', Some e).
Proof.
  revert raw. induction ms as [| [key v] ms IH]; intros raw; simpl.
  - eauto.
  - unfold decode_member at 2. simpl.
    destruct (field_named key) as [f |]; [| apply IH].
    destruct v; apply IH.
Qed.

Lemma text_from_cons (f : Field) (acc : string) (kv : string * json)
    (ms : list (string * json)) :
  text_from f acc (kv :: ms) =
  text_from f (match field_named (fst kv), snd kv with
               | Some g, JString s => if Field_eqb f g then s else acc
               | _, _ => acc
               end) ms.
Proof. reflexivity. Qed.

(** The members decode without an error exactly when each of them fits,
    and each field then holds the string of the last member that names
    it. *)
Lemma decode_members_spec (ms : list (string * json)) (raw : RawLog) :
  decoded raw ms (foldl decode_member (raw, None) ms).
Proof.
  revert raw. induction ms as [| [key v] ms IH]; intros raw.
  - split; reflexivity.
  - cbn [foldl].
    assert (forall r, decode_member (raw, None) (key, v) = (r, None) ->
              fits (key, v) = true ->
              (forall f, text_from f (load f raw) ((key, v) :: ms)
                         = text_from f (load f r) ms) ->
              decoded raw ((key, v) :: ms)
                (foldl decode_member (decode_member (raw, None) (key, v)) ms))
      as Hok.
    { intros r -> Hfit Htext. specialize (IH r). unfold decoded in *.
      cbn [forallb]. rewrite Hfit. cbn [andb].
      destruct (snd (foldl decode_member (r, None) ms)); [exact IH |].
      destruct IH as [Hfits Hload]. split; [exact Hfits |].
      intros f. now rewrite Hload, Htext. }
    assert (forall e, decode_member (raw, None) (key, v) = (raw, Some e) ->
              fits (key, v) = false ->
              decoded raw ((key, v) :: ms)
                (foldl decode_member (decode_member (raw, None) (key, v)) ms))
      as Hbad.
    { intros e -> Hfit.
      destruct (decode_members_error ms raw e) as [raw' ->].
      unfold decoded. cbn [snd forallb]. now rewrite Hfit. }
    destruct (field_named key) as [g |] eqn:Hk.
    2: { apply (Hok raw).
         - unfold decode_member. cbn [fst]. now rewrite Hk.
         - unfold fits. cbn [fst]. now rewrite Hk.
         - intros f. rewrite text_from_cons. cbn [fst]. now rewrite Hk. }
    destruct v as [| bv | num | s | vs | os].
    + apply (Hok raw).
      * unfold decode_member. cbn [fst snd]. now rewrite Hk.
      * unfold fits. cbn [fst snd]. now rewrite Hk.
      * intros f. rewrite text_from_cons. cbn [fst snd]. now rewrite Hk.
    + eapply Hbad.
      * unfold decode_member. cbn [fst snd]. rewrite Hk. reflexivity.
      * unfold fits. cbn [fst snd]. now rewrite Hk.
    + eapply Hbad.
      * unfold decode_member. cbn [fst snd]. rewrite Hk. reflexivity.
      * unfold fits. cbn [fst snd]. now rewrite Hk.
    + apply (Hok (store g s raw)).
      * unfold decode_member. cbn [fst snd]. now rewrite Hk.
      * unfold fits. cbn [fst snd]. now rewrite Hk.
      * intros f. rewrite text_from_cons. cbn [fst snd]. rewrite Hk.
        now rewrite load_store.
    + eapply Hbad.
      * unfold decode_member. cbn [fst snd]. rewrite Hk. reflexivity.
      * unfold fits. cbn [fst snd]. now rewrite Hk.
    + eapply Hbad.
      * unfold decode_member. cbn [fst snd]. rewrite Hk. reflexivity.
      * unfold fits. cbn [fst snd]. now rewrite Hk.
Qed.

Lemma RawLog_by_fields (raw raw' : RawLog) :
  (forall f, load f raw = load f raw') -> raw = raw'.
Proof.
  intros H. destruct raw, raw'.
  pose proof (H FLevel). pose proof (H FTime). pose proof (H FMessage).
  pose proof (H FError). simpl in *. congruence.
Qed.

Lemma text_from_nil (f : Field) (acc : string) : text_from f acc [] = acc.
Proof. reflexivity. Qed.

(** [json.Unmarshal] fills the placeholder exactly for well-formed JSON
    that is [null] or an object whose members fit. *)
Lemma Unmarshal_RawLog_inr (bytes : string) (raw : RawLog) :
  Unmarshal_RawLog bytes = inr raw <->
  exists v, parse_json bytes = Some v /\ decodable v = true
            /\ raw = read_RawLog v.
Proof.
  unfold Unmarshal_RawLog.
  destruct (parse_json bytes) as [v |].
  2: { split; [discriminate | intros (v & H & _); discriminate H]. }
  assert (forall P : json -> Prop, (exists v', Some v = Some v' /\ P v')
                                   <-> P v) as Hex.
  { intros P. split; [intros (v' & [= <-] & H); exact H | eauto]. }
  rewrite (Hex (fun v => decodable v = true /\ raw = read_RawLog v)).
  destruct v as [| bv | num | s | vs | ms]; simpl;
    try (split; [discriminate | intros [H _]; discriminate H]).
  - split; [intros [= <-]; now split | intros [_ ->]; reflexivity].
  - pose proof (decode_members_spec ms zero_RawLog) as H.
    unfold decoded in H.
    destruct (foldl decode_member (zero_RawLog, None) ms) as [raw' [e |]];
      cbn [fst snd] in H.
    + split; [discriminate | intros [Hf _]; congruence].
    + destruct H as [Hfits Hload]. split.
      * intros [= <-]. split; [exact Hfits |].
        apply RawLog_by_fields. intros f. rewrite Hload.
        destruct f; reflexivity.
      * intros [_ ->]. f_equal. apply RawLog_by_fields. intros f.
        rewrite Hload. destruct f; reflexivity.
Qed.

(** C8. With [json.Unmarshal] decoding into the placeholder of four Go
    strings, [UnmarshalLog] returns a message exactly when the input is
    well-formed JSON that is [null] or an object whose members named
    [level], [time], [message] and [error] hold strings or [null], its
    [time] field parses under the RFC 3339 layout of the renderer and its
    [level] field is a level token that zerolog recognises; the message
    then carries that level and timestamp and the message and error texts
    of the input. In every other case it returns an error and no message.
    A line as the JSON renderer writes it decodes to its record. *)
Theorem UnmarshalLog_typed_members {E : Env}
    (parse_time : string -> string -> error + Time)
    (parse_level : string -> error + Level) (bytes : string) :
  let decodes (m : Message) : Prop :=
    exists (v : json) (t : Time) (l : Level),
      parse_json bytes = Some v
      /\ decodable v = true
      /\ parse_time "2006-01-02T15:04:05Z07:00" (member_text FTime v) = inr t
      /\ parse_level (member_text FLevel v) = inr l
      /\ m = {| msg_Level := l; msg_Time := t;
                msg_Message := member_text FMessage v;
                msg_Error := member_text FError v;
                msg_err := None |} in
  (forall m : Message,
      @UnmarshalLog E (json_codec parse_time parse_level) bytes = inr m
      <-> decodes m)
  /\ ((exists err : error,
         @UnmarshalLog E (json_codec parse_time parse_level) bytes = inl err)
      <-> ~ exists m : Message, decodes m)
  /\ @UnmarshalLog E (json_codec rfc3339 level_token)
       (info_line (quoted "started"))
     = inr {| msg_Level := InfoLevel; msg_Time := 1609459200%Z;
              msg_Message := "started"; msg_Error := "";
              msg_err := None |}.
Proof.
  cbv zeta.
  pose proof (@UnmarshalLog_cases E (json_codec parse_time parse_level) bytes)
    as [Hm He].
  cbn [json_Unmarshal time_Parse zerolog_ParseLevel json_codec] in Hm, He.
  assert (forall m : Message,
    (exists (raw : RawLog) (t : Time) (l : Level),
        Unmarshal_RawLog bytes = inr raw
        /\ parse_time "2006-01-02T15:04:05Z07:00" (raw_Time raw) = inr t
        /\ parse_level (raw_Level raw) = inr l
        /\ m = {| msg_Level := l; msg_Time := t;
                  msg_Message := raw_Message raw; msg_Error := raw_Error raw;
                  msg_err := None |})
    <->
    (exists (v : json) (t : Time) (l : Level),
        parse_json bytes = Some v
        /\ decodable v = true
        /\ parse_time "2006-01-02T15:04:05Z07:00" (member_text FTime v)
           = inr t
        /\ parse_level (member_text FLevel v) = inr l
        /\ m = {| msg_Level := l; msg_Time := t;
                  msg_Message := member_text FMessage v;
                  msg_Error := member_text FError v;
                  msg_err := None |})) as Hsame.
  { intros m. split.
    - intros (raw & t & l & Hraw & Ht & Hl & ->).
      apply Unmarshal_RawLog_inr in Hraw as (v & Hv & Hd & ->).
      exists v, t, l. auto.
    - intros (v & t & l & Hv & Hd & Ht & Hl & ->).
      exists (read_RawLog v), t, l. split; [| auto].
      apply Unmarshal_RawLog_inr. eauto. }
  split; [| split].
  - intros m. rewrite Hm. apply Hsame.
  - rewrite He. split; intros H [m Hd]; apply H; exists m; now apply Hsame.
  - reflexivity.
Qed.

(** A line whose [message] is the number 5: well-formed JSON, with a time
    that parses and a level that is recognised, and yet no message comes
    back, because a number does not fit the Go string of the placeholder. *)
Lemma UnmarshalLog_number_counterexample :
  parse_json (info_line "5")
    = Some (JObject [("level", JString "info");
                     ("time", JString "2021-01-01T00:00:00Z");
                     ("message", JNumber "5")])
  /\ rfc3339 "2006-01-02T15:04:05Z07:00" "2021-01-01T00:00:00Z"
     = inr 1609459200%Z
  /\ level_token "info" = inr InfoLevel
  /\ @UnmarshalLog spec_env (json_codec rfc3339 level_token) (info_line "5")
     = inl ("json: cannot unmarshal number into Go struct field .message"
            +:+ " of type string")
  /\ forall m : Message,
       @UnmarshalLog spec_env (json_codec rfc3339 level_token) (info_line "5")
       <> inr m.
Proof.
  split; [reflexivity |]. split; [reflexivity |]. split; [reflexivity |].
  split; [reflexivity |]. intros m. discriminate.
Qed.



(** * Further properties of the package *)

(** ** The registry of writers *)

Lemma index_from_spec (ws : list loc) (a : loc) (i : Z) :
  ((a ∉ ws) /\ index_from i ws a = (-1)%Z) \/
  (exists k : nat,
      index_from i ws a = (i + Z.of_nat k)%Z /\ ws !! k = Some a /\
      (a ∉ take k ws)).
Proof.
  revert i. induction ws as [| curr ws IH]; intros i; simpl.
  - left. split; [apply not_elem_of_nil | reflexivity].
  - destruct (Nat.eqb_spec a curr) as [-> | Hne].
    + right. exists O. simpl. rewrite Z.add_0_r.
      split; [reflexivity | split; [reflexivity | apply not_elem_of_nil]].
    + destruct (IH (i + 1)%Z) as [[Hn Hi] | (k & Hi & Hk & Hn)].
      * left. split; [| exact Hi]. rewrite not_elem_of_cons. now split.
      * right. exists (S k). simpl. split; [rewrite Hi; lia |].
        split; [exact Hk |]. rewrite not_elem_of_cons. now split.
Qed.

Lemma getWriterIndex_spec (a : loc) (w : World) :
  ((a ∉ writers (_logger w)) /\ getWriterIndex a w = (-1)%Z) \/
  (exists k : nat,
      getWriterIndex a w = Z.of_nat k /\
      writers (_logger w) !! k = Some a /\
      (a ∉ take k (writers (_logger w))) /\
      (getWriterIndex a w < Z.of_nat (length (writers (_logger w))))%Z).
Proof.
  unfold getWriterIndex.
  destruct (index_from_spec (writers (_logger w)) a 0%Z)
    as [[Hn Hi] | (k & Hi & Hk & Hn)].
  - left. now split.
  - right. exists k. rewrite Hi. simpl.
    split; [reflexivity | split; [exact Hk | split; [exact Hn |]]].
    apply lookup_lt_Some in Hk. lia.
Qed.

(** X1. [getWriterIndex] returns -1 exactly for a writer that is not
    registered, and otherwise the index of its first occurrence in the list
    of the logger, which lies within the list. *)
Theorem getWriterIndex_first (a : loc) (w : World) :
  ((a ∉ writers (_logger w)) /\ getWriterIndex a w = (-1)%Z) \/
  (exists k : nat,
      getWriterIndex a w = Z.of_nat k /\
      writers (_logger w) !! k = Some a /\
      (a ∉ take k (writers (_logger w))) /\
      (getWriterIndex a w < Z.of_nat (length (writers (_logger w))))%Z).
Proof. exact (getWriterIndex_spec a w). Qed.

(** What [InitLoggerWithWriter] does: the new logger has the given format
    and color flag, the zero level and hold flag, and the old queue;
    nothing is emitted and the global level stays. Given no sink it
    allocates one console writer on the standard output; given sinks it
    adopts them in their order, allocates nothing and tells each of them
    the format and the color flag. *)
Lemma InitLoggerWithWriter_effect (f : Format) (nc : bool) (ws : list loc)
    (w : World) :
  let w' := InitLoggerWithWriter f nc ws w in
  format (_logger w') = f /\ noColor (_logger w') = nc
  /\ level (_logger w') = 0%Z /\ hold (_logger w') = false
  /\ buffer (_logger w') = buffer (_logger w)
  /\ sunk w' = sunk w /\ stdout w' = stdout w /\ gLevel w' = gLevel w
  /\ exited w' = exited w /\ clock w' = clock w
  /\ _suppressExit w' = _suppressExit w
  /\ match ws with
     | [] => writers (_logger w') = [length (heap w)] /\
             heap w' = heap w ++ [CW (NewConsoleWriter f nc Stdout)]
     | _ :: _ => writers (_logger w') = ws /\
                 heap w' = foldl (fun (h : list WriterObj) (a : loc) =>
                                    alter (WriterObj_SetFormatting f nc) a h)
                                 (heap w) ws
     end.
Proof.
  cbv zeta. unfold InitLoggerWithWriter, NewLogger.
  destruct ws as [| a ws].
  - simpl. auto 15.
  - rewrite Writer_SetFormatting_all. simpl. auto 15.
Qed.

Lemma length_alter_all {A : Type} (g : A -> A) (ws : list nat) (h : list A) :
  length (foldl (fun (h : list A) (a : nat) => alter g a h) h ws) = length h.
Proof.
  revert h. induction ws as [| a ws IH]; intros h; simpl; [reflexivity |].
  now rewrite IH, length_alter.
Qed.

(** X2. [RemoveWriter] of a writer that is not registered changes nothing:
    the list of sinks, the logger and the rest of the state stay as they
    are. *)
Theorem RemoveWriter_absent (a : loc) (w : World) :
  a ∉ writers (_logger w) -> RemoveWriter a w = w.
Proof.
  intros Ha. unfold RemoveWriter.
  destruct (getWriterIndex_spec a w) as [[_ ->] | (k & _ & Hk & _)].
  - reflexivity.
  - exfalso. apply Ha. eapply list_elem_of_lookup_2. exact Hk.
Qed.

Lemma RemoveWriter_absent_witness :
  (7 ∉ writers (_logger (start InfoLevel 0%Z)))
  /\ RemoveWriter 7 (start InfoLevel 0%Z) = start InfoLevel 0%Z.
Proof.
  assert (H : 7 ∉ writers (_logger (start InfoLevel 0%Z))).
  { simpl. rewrite list_elem_of_singleton. lia. }
  split; [exact H | exact (RemoveWriter_absent 7 (start InfoLevel 0%Z) H)].
Defined.

(** X3. [RemoveWriter] of a registered writer drops its first occurrence
    and keeps the other sinks in their order, reinitialising the logger
    with its format, color flag and queue; no writer is created, unless the
    writer was the only sink, in which case one fresh console writer on the
    standard output takes its place. *)
Theorem RemoveWriter_first (a : loc) (w : World) :
  a ∈ writers (_logger w) ->
  exists k : nat,
    writers (_logger w) !! k = Some a
    /\ (a ∉ take k (writers (_logger w)))
    /\ let rest := take k (writers (_logger w)) ++
                   drop (S k) (writers (_logger w)) in
       let w' := RemoveWriter a w in
       S (length rest) = length (writers (_logger w))
       /\ format (_logger w') = format (_logger w)
       /\ noColor (_logger w') = noColor (_logger w)
       /\ buffer (_logger w') = buffer (_logger w)
       /\ sunk w' = sunk w
       /\ match rest with
          | [] => writers (_logger w') = [length (heap w)] /\
                  heap w' = heap w ++
                            [CW (NewConsoleWriter (format (_logger w))
                                   (noColor (_logger w)) Stdout)]
          | _ :: _ => writers (_logger w') = rest /\
                      length (heap w') = length (heap w)
          end.
Proof.
  intros Ha.
  destruct (getWriterIndex_spec a w) as [[Hn _] | (k & Hi & Hk & Hn & _)];
    [contradiction |].
  exists k. split; [exact Hk |]. split; [exact Hn |]. cbv zeta.
  unfold RemoveWriter. rewrite Hi.
  replace (0 <=? Z.of_nat k)%Z with true by (symmetry; apply Z.leb_le; lia).
  replace (Z.to_nat (Z.of_nat k + 1)) with (S k) by lia.
  rewrite Nat2Z.id.
  set (rest := take k (writers (_logger w)) ++
               drop (S k) (writers (_logger w))).
  pose proof (InitLoggerWithWriter_effect (format (_logger w))
                (noColor (_logger w)) rest w) as F.
  cbv zeta in F.
  destruct F as (Ff & Fn & _ & _ & Fb & Fs & _ & _ & _ & _ & _ & Fw).
  split.
  { unfold rest. rewrite length_app, length_take, length_drop.
    apply lookup_lt_Some in Hk. lia. }
  split; [exact Ff |]. split; [exact Fn |]. split; [exact Fb |].
  split; [exact Fs |].
  destruct rest as [| r rest']; [exact Fw |].
  destruct Fw as [Fw Fh]. split; [exact Fw |].
  rewrite Fh. apply length_alter_all.
Qed.

Lemma RemoveWriter_first_witness :
  (0 ∈ writers (_logger (start InfoLevel 0%Z)))
  /\ exists k : nat, writers (_logger (start InfoLevel 0%Z)) !! k = Some 0.
Proof.
  assert (H : 0 ∈ writers (_logger (start InfoLevel 0%Z))).
  { simpl. apply list_elem_of_here. }
  split; [exact H |].
  destruct (RemoveWriter_first 0 (start InfoLevel 0%Z) H) as (k & Hk & _).
  exists k. exact Hk.
Defined.

(** X4. [UpdateWriter] fails, with its error and without changing
    anything, exactly when the old writer is not registered; otherwise it
    puts the new writer in the place of the first occurrence of the old
    one, keeps the other sinks, the format, the color flag and the queue,
    and creates no writer. Its second guard (an index beyond the list)
    never fires. *)
Theorem UpdateWriter_first (old new : loc) (w : World) :
  ((old ∉ writers (_logger w)) /\
   UpdateWriter old new w =
     (w, Some "Cannot update logger stream, current stream not found"))
  \/
  (exists k : nat,
      writers (_logger w) !! k = Some old
      /\ (old ∉ take k (writers (_logger w)))
      /\ snd (UpdateWriter old new w) = None
      /\ writers (_logger (fst (UpdateWriter old new w)))
         = <[k := new]> (writers (_logger w))
      /\ format (_logger (fst (UpdateWriter old new w)))
         = format (_logger w)
      /\ noColor (_logger (fst (UpdateWriter old new w)))
         = noColor (_logger w)
      /\ buffer (_logger (fst (UpdateWriter old new w)))
         = buffer (_logger w)
      /\ length (heap (fst (UpdateWriter old new w))) = length (heap w)
      /\ sunk (fst (UpdateWriter old new w)) = sunk w).
Proof.
  unfold UpdateWriter.
  destruct (getWriterIndex_spec old w)
    as [[Hn ->] | (k & Hi & Hk & Hn & Hlt)].
  - left. split; [exact Hn | reflexivity].
  - right. exists k. split; [exact Hk |]. split; [exact Hn |].
    rewrite Hi in *.
    replace (Z.of_nat k <? 0)%Z with false by (symmetry; apply Z.ltb_ge; lia).
    replace (Z.of_nat (length (writers (_logger w))) <=? Z.of_nat k)%Z
      with false by (symmetry; apply Z.leb_gt; lia).
    rewrite Nat2Z.id. simpl.
    pose proof (InitLoggerWithWriter_effect (format (_logger w))
                  (noColor (_logger w))
                  (<[k := new]> (writers (_logger w))) w) as F.
    cbv zeta in F.
    destruct F as (Ff & Fn & _ & _ & Fb & Fs & _ & _ & _ & _ & _ & Fw).
    assert (Hlen : length (<[k := new]> (writers (_logger w))) <> O).
    { rewrite length_insert. apply lookup_lt_Some in Hk. lia. }
    destruct (<[k := new]> (writers (_logger w))) as [| r rest] eqn:Hins;
      [now contradiction Hlen |].
    destruct Fw as [Fw Fh].
    split; [reflexivity |]. split; [exact Fw |]. split; [exact Ff |].
    split; [exact Fn |]. split; [exact Fb |].
    split; [| exact Fs]. rewrite Fh. apply length_alter_all.
Qed.

(** X5. [AppendWriter] adds the writer at the end of the list of sinks,
    after the sinks already there, and keeps the format, the color flag
    and the queue; it creates no writer and emits nothing. *)
Theorem AppendWriter_last (a : loc) (w : World) :
  let w' := AppendWriter a w in
  writers (_logger w') = writers (_logger w) ++ [a]
  /\ format (_logger w') = format (_logger w)
  /\ noColor (_logger w') = noColor (_logger w)
  /\ buffer (_logger w') = buffer (_logger w)
  /\ length (heap w') = length (heap w)
  /\ sunk w' = sunk w /\ stdout w' = stdout w.
Proof.
  cbv zeta. unfold AppendWriter.
  pose proof (InitLoggerWithWriter_effect (format (_logger w))
                (noColor (_logger w)) (writers (_logger w) ++ [a]) w) as F.
  cbv zeta in F.
  destruct F as (Ff & Fn & _ & _ & Fb & Fs & Fo & _ & _ & _ & _ & Fw).
  destruct (writers (_logger w) ++ [a]) as [| r rest] eqn:Happ.
  { now apply app_eq_nil in Happ as [_ ?]. }
  destruct Fw as [Fw Fh].
  split; [exact Fw |]. split; [exact Ff |]. split; [exact Fn |].
  split; [exact Fb |]. split; [| split; [exact Fs | exact Fo]].
  rewrite Fh. apply length_alter_all.
Qed.

(** ** Console and buffered writers *)

(** X6. Reconfiguring a console writer whose cached renderer is the one of
    its settings gives exactly the writer that [NewConsoleWriter] builds
    for the new format and color flag on the same destination, whether or
    not the settings change; the destination is never touched. *)
Theorem ConsoleWriter_SetFormatting_rebuilds (c : ConsoleWriter) (f : Format)
    (nc : bool) :
  consistent c ->
  ConsoleWriter_SetFormatting c f nc = NewConsoleWriter f nc (output c)
  /\ consistent (ConsoleWriter_SetFormatting c f nc)
  /\ output (ConsoleWriter_SetFormatting c f nc) = output c.
Proof.
  unfold consistent. intros Hc.
  assert (H : ConsoleWriter_SetFormatting c f nc
              = NewConsoleWriter f nc (output c)).
  { unfold ConsoleWriter_SetFormatting, NewConsoleWriter.
    destruct (Z.eqb_spec (cw_format c) f) as [Hf | Hf]; simpl;
      [| reflexivity].
    destruct (Bool.eqb (cw_noColor c) nc) eqn:Hn; simpl; [| reflexivity].
    apply eqb_prop in Hn. destruct c as [cf cn co cw]. simpl in *.
    now subst. }
  rewrite H. repeat split.
Qed.

Lemma ConsoleWriter_SetFormatting_rebuilds_witness :
  consistent (NewConsoleWriter JSON false Stdout)
  /\ ConsoleWriter_SetFormatting (NewConsoleWriter JSON false Stdout)
       Default true
     = NewConsoleWriter Default true Stdout.
Proof.
  split; [reflexivity |].
  apply (ConsoleWriter_SetFormatting_rebuilds
           (NewConsoleWriter JSON false Stdout) Default true).
  reflexivity.
Defined.

Lemma ConsoleWriter_SetFormatting_output (c : ConsoleWriter) (f : Format)
    (nc : bool) :
  output (ConsoleWriter_SetFormatting c f nc) = output c.
Proof.
  unfold ConsoleWriter_SetFormatting.
  destruct (negb (cw_format c =? f)%Z || negb (Bool.eqb (cw_noColor c) nc));
    reflexivity.
Qed.

(** X7. On a buffered writer, [SetFormatting] keeps the captured lines and
    sets the format and color flag; [Reset] discards the lines and keeps
    the format and the color flag; a new buffered writer has captured
    nothing. *)
Theorem BufferedWriter_content (b : BufferedWriter) (f : Format) (nc : bool) :
  BufferedWriter_Buffer (BufferedWriter_SetFormatting b f nc)
  = BufferedWriter_Buffer b
  /\ formatting (BW (BufferedWriter_SetFormatting b f nc)) = (f, nc)
  /\ BufferedWriter_Buffer (BufferedWriter_Reset b) = []
  /\ formatting (BW (BufferedWriter_Reset b)) = formatting (BW b)
  /\ consistent (bw_writer (BufferedWriter_Reset b))
  /\ BufferedWriter_Buffer (BufferedWriter_Reset
                              (BufferedWriter_SetFormatting b f nc)) = []
  /\ BufferedWriter_Buffer (NewBufferedWriter f nc) = [].
Proof.
  split.
  { unfold BufferedWriter_Buffer, BufferedWriter_SetFormatting. simpl.
    now rewrite ConsoleWriter_SetFormatting_output. }
  split; [exact (SetFormatting_formatting f nc (BW b)) |].
  repeat split.
Qed.

Section BufferedWrites.
Context {C : Console}.

(** X8. A write on a buffered writer appends to its buffer the lines that
    [Buffer.Write] captures, after the lines already there, and changes
    neither its settings nor the rest of the state: under the JSON format
    the lines of the input itself, under the other formats the lines of
    what zerolog's console writer renders; when that writer cannot decode
    the input, nothing is captured and the error is returned with a count
    of 0. *)
Theorem BufferedWriter_Write_captures (bw : BufferedWriter) (p : string)
    (w : World) (b : Buffer) :
  output (bw_writer bw) = Mem b ->
  let bw' := fst (fst (BufferedWriter_Write bw p w)) in
  snd (fst (BufferedWriter_Write bw p w)) = w
  /\ formatting (BW bw') = formatting (BW bw)
  /\ writer (bw_writer bw') = writer (bw_writer bw)
  /\ match writer (bw_writer bw) with
     | Passthrough =>
         BufferedWriter_Buffer bw' = b ++ captured (format (_logger w)) p
         /\ snd (BufferedWriter_Write bw p w) = (len p, None)
     | ZerologConsole style nc =>
         match console_render style nc p with
         | inr line =>
             BufferedWriter_Buffer bw'
             = b ++ captured (format (_logger w)) line
             /\ snd (BufferedWriter_Write bw p w) = (len p, None)
         | inl e =>
             BufferedWriter_Buffer bw' = b
             /\ snd (BufferedWriter_Write bw p w)
                = (0%Z, Some ("cannot decode event: " +:+ e))
         end
     end.
Proof.
  intros Hb. cbv zeta.
  unfold BufferedWriter_Write, ConsoleWriter_Write, BufferedWriter_Buffer.
  destruct (writer (bw_writer bw)) as [style nc |] eqn:Hw.
  - destruct (console_render style nc p) as [e | line].
    + simpl. rewrite Hb. auto.
    + rewrite Hb. unfold Output_Write. rewrite Buffer_Write_eq. simpl.
      auto.
  - rewrite Hb. unfold Output_Write. rewrite Buffer_Write_eq. simpl.
    auto.
Qed.

End BufferedWrites.

(** Two writes on a new JSON buffered writer: the lines of both, in order. *)
Lemma BufferedWriter_Write_captures_witness :
  output (bw_writer (NewBufferedWriter JSON false)) = Mem []
  /\ snd (fst (BufferedWriter_Write (C := brace_console)
                 (NewBufferedWriter JSON false) multiline_input
                 (start InfoLevel 0%Z)))
     = start InfoLevel 0%Z.
Proof.
  split; [reflexivity |].
  apply (BufferedWriter_Write_captures (C := brace_console)
           (NewBufferedWriter JSON false) multiline_input
           (start InfoLevel 0%Z) []).
  reflexivity.
Defined.

(** ** What Buffer.Write captures *)

Lemma count_byte_append (c : ascii) (s t : string) :
  count_byte c (s +:+ t) = count_byte c s + count_byte c t.
Proof.
  induction s as [| d s IH]; [reflexivity |].
  rewrite append_cons. simpl. rewrite IH. lia.
Qed.

Lemma count_byte_skip (c : ascii) (n : nat) (s : string) :
  count_byte c (skip n s) <= count_byte c s.
Proof.
  revert s. induction n as [| n IH]; intros s; [destruct s; simpl; lia |].
  destruct s as [| d s]; simpl; [lia |].
  specialize (IH s). lia.
Qed.

Lemma length_Split (s : string) (sep : ascii) :
  length (Split s sep) = S (count_byte sep s).
Proof.
  induction s as [| c s IH]; simpl; [reflexivity |].
  destruct (Ascii.eqb c sep); simpl; [now rewrite IH |].
  destruct (Split s sep) as [| piece pieces]; simpl in *; lia.
Qed.

Lemma length_filter_le {A : Type} (keep : A -> bool) (xs : list A) :
  length (List.filter keep xs) <= length xs.
Proof.
  induction xs as [| x xs IH]; simpl; [lia |].
  destruct (keep x); simpl; lia.
Qed.

Lemma Forall_filter {A : Type} (P : A -> Prop) (keep : A -> bool)
    (xs : list A) :
  Forall P xs -> Forall P (List.filter keep xs).
Proof.
  induction 1 as [| x xs Hx Hxs IH]; simpl; [constructor |].
  destruct (keep x); [constructor |]; assumption.
Qed.

Lemma Forall_filter_kept {A : Type} (keep : A -> bool) (xs : list A) :
  Forall (fun x => keep x = true) (List.filter keep xs).
Proof.
  induction xs as [| x xs IH]; simpl; [constructor |].
  destruct (keep x) eqn:K; [constructor |]; assumption.
Qed.

(** X9. [Buffer.Write] only appends: the lines already in the buffer stay
    in front, in their order. No captured line holds a line feed, under a
    format other than [Default] no captured line is empty, and a write
    captures at most one line more than its input has line feeds. *)
Theorem Buffer_Write_appends (p : string) (b : Buffer) (w : World) :
  let new := captured (format (_logger w)) p in
  fst (Buffer_Write p b w) = b ++ new
  /\ take (length b) (fst (Buffer_Write p b w)) = b
  /\ Forall (fun line : string => contains newline line = false) new
  /\ (if (format (_logger w) =? Default)%Z then True
      else Forall (fun line : string => line <> "") new)
  /\ length new <= S (count_byte newline p).
Proof.
  cbv zeta. rewrite Buffer_Write_eq. simpl. fold (captured (format (_logger w)) p).
  split; [reflexivity |].
  split; [now rewrite take_app_length |].
  split; [apply Forall_filter, Split_no_sep |].
  split.
  - destruct (format (_logger w) =? Default)%Z eqn:G; [exact I |].
    unfold captured. eapply Forall_impl; [apply Forall_filter_kept |].
    intros line K. unfold kept in K. rewrite G in K. simpl in K.
    intros ->. discriminate K.
  - unfold captured.
    etransitivity; [apply length_filter_le |]. rewrite length_Split.
    apply le_n_S. unfold strip_leading_newlines.
    assert (T : count_byte newline (TrimSuffix p LF) <= count_byte newline p).
    { destruct (TrimSuffix_spec p LF) as [[s [Hp ->]] | [_ ->]]; [| lia].
      rewrite Hp, count_byte_append. lia. }
    destruct (2 <=? leading newline (TrimSuffix p LF))%nat; [| exact T].
    etransitivity; [apply count_byte_skip | exact T].
Qed.

(** ** ParseFormat *)

Lemma lower_idem (c : ascii) : lower (lower c) = lower c.
Proof. destruct c as [[] [] [] [] [] [] [] []]; reflexivity. Qed.

Lemma ToLower_idem (s : string) : ToLower (ToLower s) = ToLower s.
Proof.
  induction s as [| c s IH]; simpl; [reflexivity |].
  now rewrite lower_idem, IH.
Qed.

(** X10. [ParseFormat] ignores the case of the ASCII letters. When it
    succeeds, the lower-cased input is the text that [String] gives for the
    format it returns; when it fails, the lower-cased input is none of
    "default", "pretty" and "json", the format returned is [Default] and
    the error quotes the input as it was given. *)
Theorem ParseFormat_spec {E : Env} (formatStr : string) :
  match ParseFormat formatStr with
  | (f, None) => Format_String f = Returns (ToLower formatStr)
  | (f, Some e) =>
      f = Default
      /\ e = Sprintf "unknown log format: '%s'" [ArgString formatStr]
      /\ ToLower formatStr <> "default"
      /\ ToLower formatStr <> "pretty"
      /\ ToLower formatStr <> "json"
  end
  /\ fst (ParseFormat (ToLower formatStr)) = fst (ParseFormat formatStr)
  /\ (snd (ParseFormat (ToLower formatStr)) = None
      <-> snd (ParseFormat formatStr) = None).
Proof.
  unfold ParseFormat. rewrite ToLower_idem.
  destruct (String.eqb_spec (ToLower formatStr) "default") as [-> | H1];
    [repeat split |].
  destruct (String.eqb_spec (ToLower formatStr) "pretty") as [-> | H2];
    [repeat split |].
  destruct (String.eqb_spec (ToLower formatStr) "json") as [-> | H3];
    [repeat split |].
  simpl. repeat split; auto; discriminate.
Qed.

(** X11. [ParseFormat] reads back what [Format.String] writes: for the
    three formats, parsing the text of a format returns that format and no
    error. *)
Theorem ParseFormat_String {E : Env} (f : Format) :
  (Default <= f <= JSON)%Z ->
  exists text : string,
    Format_String f = Returns text /\ ParseFormat text = (f, None).
Proof.
  unfold Default, JSON. intros H.
  assert (f = 0 \/ f = 1 \/ f = 2)%Z as [-> | [-> | ->]] by lia;
    eexists; split; reflexivity.
Qed.

Lemma ParseFormat_String_witness :
  (Default <= JSON <= JSON)%Z
  /\ exists text : string,
       Format_String JSON = Returns text
       /\ ParseFormat (E := spec_env) text = (JSON, None).
Proof.
  assert (H : (Default <= JSON <= JSON)%Z) by (unfold Default, JSON; lia).
  split; [exact H | exact (ParseFormat_String (E := spec_env) JSON H)].
Defined.

(** ** SetFormatting *)

Lemma formats_after_SetFormatting (f : Format) (nc : bool) (ws : list loc)
    (h : list WriterObj) (a : loc) :
  map formatting
    (foldl (fun (h : list WriterObj) (a : loc) =>
              alter (WriterObj_SetFormatting f nc) a h) h ws) !! a
  = if bool_decide (a ∈ ws)
    then (fun _ : Format * bool => (f, nc)) <$> map formatting h !! a
    else map formatting h !! a.
Proof.
  change (map formatting) with (fmap (M := list) formatting).
  rewrite !list_lookup_fmap.
  rewrite (alter_all_lookup _ ws h a (SetFormatting_idem f nc)).
  destruct (bool_decide (a ∈ ws)); [| reflexivity].
  destruct (h !! a); simpl; [| reflexivity].
  now rewrite SetFormatting_formatting.
Qed.

Lemma SetFormatting_eq (f : Format) (nc : bool) (w : World) :
  SetFormatting f nc w
  = with_heap (foldl (fun (h : list WriterObj) (a : loc) =>
                        alter (WriterObj_SetFormatting f nc) a h)
                     (heap w) (writers (_logger w)))
      (with_logger (with_formatting f nc (_logger w)) w).
Proof. unfold SetFormatting. cbv zeta. now rewrite Writer_SetFormatting_all. Qed.

Lemma alter_all_idem {A : Type} (g : A -> A) (ws : list nat) (h : list A) :
  (forall x, g (g x) = g x) ->
  foldl (fun (h : list A) (a : nat) => alter g a h)
        (foldl (fun (h : list A) (a : nat) => alter g a h) h ws) ws
  = foldl (fun (h : list A) (a : nat) => alter g a h) h ws.
Proof.
  intros Hg. apply list_eq. intros a.
  rewrite !(alter_all_lookup g ws _ a Hg).
  destruct (bool_decide (a ∈ ws)); [| reflexivity].
  destruct (h !! a); simpl; [now rewrite Hg | reflexivity].
Qed.

(** X12. [SetFormatting] sets the format and the color flag of the logger
    and of each of its sinks, and of nothing else: a writer that is not a
    sink of the logger keeps its settings, the list of sinks, the queue and
    the hold flag stay, no writer is created and nothing is emitted.
    Setting the same formatting again changes nothing. *)
Theorem SetFormatting_effect (f : Format) (nc : bool) (w : World) (a : loc) :
  let w' := SetFormatting f nc w in
  _logger w' = with_formatting f nc (_logger w)
  /\ writers (_logger w') = writers (_logger w)
  /\ buffer (_logger w') = buffer (_logger w)
  /\ hold (_logger w') = hold (_logger w)
  /\ sunk w' = sunk w /\ stdout w' = stdout w /\ gLevel w' = gLevel w
  /\ length (heap w') = length (heap w)
  /\ map formatting (heap w') !! a
     = (if bool_decide (a ∈ writers (_logger w))
        then (fun _ : Format * bool => (f, nc)) <$>
               map formatting (heap w) !! a
        else map formatting (heap w) !! a)
  /\ SetFormatting f nc w' = w'.
Proof.
  cbv zeta. rewrite !SetFormatting_eq. simpl.
  split; [reflexivity |]. split; [reflexivity |]. split; [reflexivity |].
  split; [reflexivity |]. split; [reflexivity |]. split; [reflexivity |].
  split; [reflexivity |]. split; [apply length_alter_all |].
  split; [apply formats_after_SetFormatting |].
  unfold with_heap, with_logger. simpl. f_equal.
  apply alter_all_idem, SetFormatting_idem.
Qed.

(** ** Leveled calls while the logger does not hold *)

Lemma sink_entries_writers {E : Env} (w : World) (ws : list loc)
    (lvl : Level) (e : option error) (m : string) :
  Forall (fun a : loc => a < length (heap w)) ws ->
  map sw_writer (sink_entries w ws lvl e m) = ws.
Proof.
  unfold sink_entries. induction 1 as [| a ws Ha Hws IH]; simpl;
    [reflexivity |].
  rewrite map_app, IH.
  destruct (lookup_lt_is_Some_2 (heap w) a Ha) as [o ->]. reflexivity.
Qed.

Lemma sink_entries_event {E : Env} (w : World) (ws : list loc)
    (lvl : Level) (e : option error) (m : string) :
  Forall (fun s : SinkWrite =>
            sw_level s = lvl /\ sw_message s = m /\ sw_error s = e /\
            sw_time s = clock w)
         (sink_entries w ws lvl e m).
Proof.
  unfold sink_entries. induction ws as [| a ws IH]; simpl; [constructor |].
  apply Forall_app. split; [| exact IH].
  destruct (heap w !! a); repeat constructor.
Qed.

(** X13. While the logger does not hold and every sink exists, a leveled
    call whose level passes the backend's filter puts exactly one record at
    each sink, in the order of the sinks, with the level, the message
    (formatted when there are arguments), the error and the current time of
    the call; a call whose level does not pass puts nothing. Either way the
    queue and the logger stay as they are. *)
Theorem live_call_fans_out {E : Env} {C : Console} (level : Level)
    (msg : string) (err : option error) (v : list Arg) (w : World) :
  hold (_logger w) = false ->
  Forall (fun a : loc => a < length (heap w)) (writers (_logger w)) ->
  let m := match v with [] => msg | _ :: _ => Sprintf msg v end in
  let w' := log level msg err v w in
  exists new : list SinkWrite,
    sunk w' = sunk w ++ new
    /\ _logger w' = _logger w
    /\ map sw_writer new
       = (if should (gLevel w) level then writers (_logger w) else [])
    /\ Forall (fun s : SinkWrite =>
                 sw_level s = level /\ sw_message s = m /\ sw_error s = err
                 /\ sw_time s = clock w) new.
Proof.
  intros Hh Ha. cbv zeta. rewrite (log_live level msg err v w Hh).
  destruct (WithLevel_Msg_frame (_logger w) level err
              (match v with [] => msg | _ :: _ => Sprintf msg v end) w)
    as [Hc Hs].
  apply config_inv in Hc as (Hl & _).
  eexists. split; [exact Hs |]. split; [exact Hl |].
  unfold fanout. destruct (should (gLevel w) level).
  - split; [now apply sink_entries_writers | apply sink_entries_event].
  - split; [reflexivity | constructor].
Qed.

Lemma live_call_fans_out_witness :
  hold (_logger (start InfoLevel 0%Z)) = false
  /\ Forall (fun a : loc => a < length (heap (start InfoLevel 0%Z)))
       (writers (_logger (start InfoLevel 0%Z)))
  /\ exists new : list SinkWrite,
       sunk (log (E := spec_env) (C := brace_console) WarnLevel "w" None []
               (start InfoLevel 0%Z))
       = sunk (start InfoLevel 0%Z) ++ new.
Proof.
  assert (Ha : Forall (fun a : loc => a < length (heap (start InfoLevel 0%Z)))
                 (writers (_logger (start InfoLevel 0%Z)))).
  { simpl. repeat constructor. }
  split; [reflexivity |]. split; [exact Ha |].
  destruct (live_call_fans_out (E := spec_env) (C := brace_console)
              WarnLevel "w" None [] (start InfoLevel 0%Z) eq_refl Ha)
    as (new & Hs & _).
  exists new. exact Hs.
Defined.

(** ** Flush again, and Logger.Write under a hold *)

Lemma with_logger_same (w : World) : with_logger (_logger w) w = w.
Proof. now destruct w. Qed.

Lemma Flush_empty {E : Env} {C : Console} (w : World) :
  buffer (_logger w) = [] ->
  Flush w = with_logger (with_hold false (_logger w)) w.
Proof.
  intros Hb. unfold Flush. cbv zeta. simpl. rewrite Hb. simpl.
  unfold with_logger, with_buffer, with_hold. simpl. now rewrite Hb.
Qed.

(** X14. [Flush] is idempotent: a second [Flush] right after the first
    changes nothing and emits nothing. *)
Theorem Flush_twice {E : Env} {C : Console} (w : World) :
  Flush (Flush w) = Flush w.
Proof.
  destruct (Flush_frame w) as (Hl & _).
  assert (Hb : buffer (_logger (Flush w)) = []) by now rewrite Hl.
  assert (Hh : with_hold false (_logger (Flush w)) = _logger (Flush w)).
  { rewrite Hl. reflexivity. }
  rewrite (Flush_empty (Flush w) Hb), Hh. apply with_logger_same.
Qed.

Lemma flat_map_nil {A B : Type} (xs : list A) :
  flat_map (fun _ : A => @nil B) xs = [].
Proof. induction xs; simpl; auto. Qed.

(** X15. [Logger.Write] does not look at the hold flag: while the logger
    holds it still hands every line it keeps to the handler at once, at the
    level of the logger, so that each sink receives them in order, exactly
    as without the hold; it queues nothing and leaves the logger as it is.
    It reports the full length and no error even when the backend filters
    that level out and nothing reaches any sink. With the global level at
    debug and one buffering sink, the two lines of an input written while
    the logger holds are on the sink and the queue is empty. *)
Theorem Logger_Write_ignores_hold {E : Env} {C : Console} (l : Logger)
    (p : string) (w : World) :
  snd (Logger_Write l p w) = (len p, None)
  /\ _logger (fst (Logger_Write l p w)) = _logger w
  /\ _logger (fst (Logger_Write l p (Hold w))) = _logger (Hold w)
  /\ buffer (_logger (fst (Logger_Write l p (Hold w)))) = buffer (_logger w)
  /\ sunk (fst (Logger_Write l p (Hold w))) =
       sunk w ++
       flat_map (fun line : string => fanout w l (level l) None line)
         (List.filter (fun line : string =>
                         negb (line =? "") || (gLevel w =? 0)%Z)
                      (Split p newline))
  /\ sunk (fst (Logger_Write l p (Hold w))) = sunk (fst (Logger_Write l p w))
  /\ (if should (gLevel w) (level l) then True
      else sunk (fst (Logger_Write l p w)) = sunk w)
  /\ hold (_logger (Hold (run (E := spec_env) (C := brace_console)
                            [OpNewBufferedWriter JSON false;
                             OpInitLoggerWithWriter JSON true [1]]
                            (start DebugLevel 0%Z)))) = true
  /\ map (fun s : SinkWrite => (sw_writer s, sw_level s, sw_message s))
       (sunk (fst (Logger_Write (E := spec_env) (C := brace_console)
                     (_logger (run (E := spec_env) (C := brace_console)
                                 [OpNewBufferedWriter JSON false;
                                  OpInitLoggerWithWriter JSON true [1]]
                                 (start DebugLevel 0%Z)))
                     ("a" +:+ LF +:+ "b")
                     (Hold (run (E := spec_env) (C := brace_console)
                              [OpNewBufferedWriter JSON false;
                               OpInitLoggerWithWriter JSON true [1]]
                              (start DebugLevel 0%Z))))))
     = [(1, DebugLevel, "a"); (1, DebugLevel, "b")]
  /\ buffer (_logger
       (fst (Logger_Write (E := spec_env) (C := brace_console)
               (_logger (run (E := spec_env) (C := brace_console)
                           [OpNewBufferedWriter JSON false;
                            OpInitLoggerWithWriter JSON true [1]]
                           (start DebugLevel 0%Z)))
               ("a" +:+ LF +:+ "b")
               (Hold (run (E := spec_env) (C := brace_console)
                        [OpNewBufferedWriter JSON false;
                         OpInitLoggerWithWriter JSON true [1]]
                        (start DebugLevel 0%Z))))))
     = [].
Proof.
  destruct (Logger_Write_frame l p w) as (Hr & Hc & Hs).
  destruct (Logger_Write_frame l p (Hold w)) as (_ & Hc' & Hs').
  apply config_inv in Hc as (Hl & _). apply config_inv in Hc' as (Hl' & _).
  assert (sunk (fst (Logger_Write l p (Hold w))) =
          sunk w ++
          flat_map (fun line : string => fanout w l (level l) None line)
            (List.filter (fun line : string =>
                            negb (line =? "") || (gLevel w =? 0)%Z)
                         (Split p newline))) as Hheld.
  { rewrite Hs'. reflexivity. }
  split; [exact Hr |]. split; [exact Hl |]. split; [exact Hl' |].
  split; [rewrite Hl'; reflexivity |].
  split; [exact Hheld |].
  split; [rewrite Hheld, Hs; reflexivity |].
  split.
  { destruct (should (gLevel w) (level l)) eqn:K; [exact I |].
    rewrite Hs. unfold fanout. rewrite K, flat_map_nil. apply app_nil_r. }
  split; [reflexivity |]. split; vm_compute; reflexivity.
Qed.

(** ** Holding does not lose or reorder records *)

Section Order.
Context {E : Env} {C : Console}.

Lemma untimed_clock (w : World) (t : Time) (l : Logger) (lvl : Level)
    (e : option error) (m : string) :
  map untimed (fanout (with_clock t w) l lvl e m)
  = map untimed (fanout w l lvl e m).
Proof.
  unfold fanout. change (gLevel (with_clock t w)) with (gLevel w).
  destruct (should (gLevel w) lvl); [| reflexivity].
  unfold sink_entries. induction (writers l) as [| a ws IH];
    [reflexivity |].
  cbn [flat_map]. rewrite !map_app, IH. f_equal.
  change (heap (with_clock t w)) with (heap w).
  destruct (heap w !! a); reflexivity.
Qed.

Lemma untimed_fanout (w w' : World) (l l' : Logger) (lvl : Level)
    (e : option error) (m : string) :
  gLevel w' = gLevel w ->
  map formatting (heap w') = map formatting (heap w) ->
  writers l' = writers l ->
  map untimed (fanout w' l' lvl e m) = map untimed (fanout w l lvl e m).
Proof.
  intros Hg Hh Hw.
  rewrite <- (untimed_clock w (clock w') l lvl e m).
  f_equal. apply fanout_ext; auto.
Qed.

Lemma call_live (w : World) (c : Call) :
  hold (_logger w) = false ->
  call w c =
    WithLevel_Msg (_logger w) (call_level c) (call_err c)
      (msg_Message (queued c)) (with_clock (call_at c) w).
Proof.
  intros H. unfold call.
  assert (H0 : hold (_logger (with_clock (call_at c) w)) = false)
    by exact H.
  now rewrite (log_live _ _ _ _ _ H0).
Qed.

(** Without a hold, every call is emitted as it is made. *)
Lemma calls_live (cs : list Call) (w : World) :
  hold (_logger w) = false ->
  let w' := foldl call w cs in
  _logger w' = _logger w /\ gLevel w' = gLevel w
  /\ map formatting (heap w') = map formatting (heap w)
  /\ sunk w' =
       sunk w ++
       flat_map (fun c : Call =>
                   fanout (with_clock (call_at c) w) (_logger w)
                     (call_level c) (call_err c) (msg_Message (queued c)))
                cs.
Proof.
  revert w. induction cs as [| c cs IH]; intros w H; simpl.
  - rewrite app_nil_r. auto.
  - rewrite (call_live w c H).
    destruct (WithLevel_Msg_frame (_logger w) (call_level c) (call_err c)
                (msg_Message (queued c)) (with_clock (call_at c) w))
      as [Hc Hs].
    set (w1 := WithLevel_Msg _ _ _ _ (with_clock (call_at c) w)) in *.
    apply config_inv in Hc as (Hl & _ & Hg & _ & _ & Hh).
    cbn [_logger gLevel heap sunk with_clock] in Hl, Hg, Hh, Hs.
    assert (H1 : hold (_logger w1) = false) by now rewrite Hl.
    destruct (IH w1 H1) as (Hl' & Hg' & Hh' & Hs').
    split; [congruence |]. split; [congruence |]. split; [congruence |].
    rewrite Hs', Hs, <- app_assoc. f_equal. f_equal.
    rewrite Hl. apply flat_map_ext. intros c'.
    apply fanout_ext; simpl; auto.
Qed.

Lemma map_flat_map {A B D : Type} (f : B -> D) (g : A -> list B)
    (xs : list A) :
  map f (flat_map g xs) = flat_map (fun x => map f (g x)) xs.
Proof.
  induction xs as [| x xs IH]; simpl; [reflexivity |].
  now rewrite map_app, IH.
Qed.

End Order.

Lemma logger_after_flush (l : Logger) (q : list Message) :
  hold l = false -> buffer l = [] ->
  with_buffer [] (with_hold false
                    (with_buffer (buffer (with_hold true l) ++ q)
                       (with_hold true l))) = l.
Proof. destruct l. simpl. intros -> ->. reflexivity. Qed.

(** X16. Holding neither loses, duplicates nor reorders records. From a
    state that does not hold and has an empty queue, the same calls made
    under [Hold] and followed by [Flush] put at the sinks, after the
    announcement of the flush, exactly the records that the calls put there
    when made without a hold, in the same order and at the same sinks;
    only their timestamps differ (they are those of the flush). The logger
    ends up the same. *)
Theorem holding_keeps_the_records {E : Env} {C : Console} (w : World)
    (cs : list Call) (t : Time) :
  hold (_logger w) = false ->
  buffer (_logger w) = [] ->
  let live := foldl call w cs in
  let flushed := Flush (with_clock t (foldl call (Hold w) cs)) in
  let announce :=
    match cs with
    | [] => []
    | _ :: _ =>
        fanout (with_clock t w) (_logger w) DebugLevel None
          (Sprintf "Flushing buffer with %d log(s)"
             [ArgInt (Z.of_nat (length cs))])
    end in
  sunk live = sunk w ++ drop (length (sunk w)) (sunk live)
  /\ map untimed (sunk flushed)
     = map untimed (sunk w) ++ map untimed announce ++
       map untimed (drop (length (sunk w)) (sunk live))
  /\ _logger flushed = _logger live.
Proof.
  intros Hh Hb. cbv zeta.
  destruct (calls_live cs w Hh) as (Ll & _ & _ & Ls).
  assert (Hh' : hold (_logger (Hold w)) = true) by reflexivity.
  destruct (calls_held cs (Hold w) Hh') as (Hl & Hs & _ & Hp & Hg & _ & _).
  set (held := foldl call (Hold w) cs) in *.
  destruct (Flush_frame (with_clock t held)) as (Fl & _ & _ & _ & _ & _ & Fs).
  cbn [_logger with_clock sunk] in Fl, Fs.
  assert (Bq : buffer (_logger held) = map queued cs).
  { rewrite Hl. simpl. now rewrite Hb. }
  split; [| split].
  - rewrite Ls. rewrite drop_app_length. reflexivity.
  - rewrite Fs, Hs, Bq, Ls, drop_app_length. simpl sunk.
    rewrite !map_app. f_equal. f_equal.
    + destruct cs as [| c cs']; [reflexivity |]. simpl map at 1.
      rewrite length_map. apply untimed_fanout; simpl; auto.
      * now rewrite Hp.
      * now rewrite Hl.
    + rewrite flat_map_map, !map_flat_map. apply flat_map_ext. intros c.
      apply untimed_fanout; simpl; auto.
      * now rewrite Hp.
      * now rewrite Hl.
  - rewrite Fl, Hl, Ll. now apply logger_after_flush.
Qed.

Lemma holding_keeps_the_records_witness :
  hold (_logger (start DebugLevel 0%Z)) = false
  /\ buffer (_logger (start DebugLevel 0%Z)) = []
  /\ _logger (Flush (E := spec_env) (C := brace_console)
       (with_clock 5%Z
          (foldl (call (E := spec_env) (C := brace_console))
             (Hold (start DebugLevel 0%Z))
             [{| call_at := 1%Z; call_level := WarnLevel; call_msg := "a";
                 call_err := None; call_v := [] |}])))
     = _logger (foldl (call (E := spec_env) (C := brace_console))
                  (start DebugLevel 0%Z)
                  [{| call_at := 1%Z; call_level := WarnLevel;
                      call_msg := "a"; call_err := None; call_v := [] |}]).
Proof.
  split; [reflexivity |]. split; [reflexivity |].
  apply (holding_keeps_the_records (E := spec_env) (C := brace_console)
           (start DebugLevel 0%Z)
           [{| call_at := 1%Z; call_level := WarnLevel; call_msg := "a";
               call_err := None; call_v := [] |}] 5%Z);
    reflexivity.
Defined.

(** ** Sinks in step with the logger *)

Lemma synced_frame (w w' : World) :
  format (_logger w') = format (_logger w) ->
  noColor (_logger w') = noColor (_logger w) ->
  writers (_logger w') = writers (_logger w) ->
  map formatting (heap w') = map formatting (heap w) ->
  synced w -> synced w'.
Proof. unfold synced. intros -> -> -> ->. auto. Qed.

Lemma synced_allocated (w : World) :
  synced w ->
  Forall (fun a : loc => a < length (heap w)) (writers (_logger w)).
Proof.
  unfold synced. intros H. eapply Forall_impl; [exact H |].
  intros a Ha. simpl in Ha.
  apply lookup_lt_Some in Ha. now rewrite length_map in Ha.
Qed.

Lemma synced_alloc (o : WriterObj) (w : World) :
  synced w -> synced (snd (alloc o w)).
Proof.
  unfold synced, alloc. simpl. intros H. eapply Forall_impl; [exact H |].
  intros a Ha. simpl in *.
  rewrite map_app. now apply lookup_app_l_Some.
Qed.

Lemma synced_SetFormatting (f : Format) (nc : bool) (w : World) :
  Forall (fun a : loc => a < length (heap w)) (writers (_logger w)) ->
  synced (SetFormatting f nc w).
Proof.
  intros Ha. unfold synced. rewrite SetFormatting_eq. simpl.
  rewrite Forall_forall in *. intros a Hin.
  rewrite formats_after_SetFormatting.
  rewrite bool_decide_eq_true_2 by exact Hin.
  specialize (Ha a Hin). rewrite <- (length_map formatting) in Ha.
  destruct (lookup_lt_is_Some_2 _ a Ha) as [x ->]. reflexivity.
Qed.

Lemma synced_InitLoggerWithWriter (f : Format) (nc : bool) (ws : list loc)
    (w : World) :
  Forall (fun a : loc => a < length (heap w)) ws ->
  synced (InitLoggerWithWriter f nc ws w)
  /\ writers (_logger (InitLoggerWithWriter f nc ws w)) <> []
  /\ level (_logger (InitLoggerWithWriter f nc ws w)) = DebugLevel.
Proof.
  intros Ha.
  pose proof (InitLoggerWithWriter_effect f nc ws w) as F. cbv zeta in F.
  destruct F as (Ff & Fn & Fl & _ & _ & _ & _ & _ & _ & _ & _ & Fw).
  split; [| split; [| exact Fl]].
  - unfold synced. rewrite Ff, Fn. destruct ws as [| a ws].
    + destruct Fw as [-> ->]. repeat constructor.
      rewrite map_app, lookup_app_r by (rewrite length_map; lia).
      now rewrite length_map, Nat.sub_diag.
    + destruct Fw as [-> ->]. rewrite Forall_forall in *. intros x Hin.
      rewrite formats_after_SetFormatting.
      rewrite bool_decide_eq_true_2 by exact Hin.
      specialize (Ha x Hin). rewrite <- (length_map formatting) in Ha.
      destruct (lookup_lt_is_Some_2 _ x Ha) as [y ->]. reflexivity.
  - destruct ws; destruct Fw as [-> _]; discriminate.
Qed.

Section SoundStates.
Context {E : Env} {C : Console}.

Lemma synced_exit (e : option error) (m : string) (w : World) :
  let w1 := WithLevel_Msg (_logger w) FatalLevel e m w in
  let w' := if negb (_suppressExit w1) then os_Exit 1 w1 else w1 in
  _logger w' = _logger w /\
  map formatting (heap w') = map formatting (heap w).
Proof.
  cbv zeta.
  destruct (WithLevel_Msg_frame (_logger w) FatalLevel e m w) as [Hc _].
  apply config_inv in Hc as (Hl & _ & _ & _ & _ & Hh).
  destruct (negb (_suppressExit _)); simpl; auto.
Qed.

Lemma synced_Bypass (msg : string) (w : World) :
  Forall (fun a : loc => a < length (heap w)) (writers (_logger w)) ->
  synced (Bypass msg w).
Proof.
  intros Ha. unfold Bypass. cbv zeta.
  destruct (SetFormatting_frame Default true w)
    as (L1 & _ & _ & _ & _ & _ & _ & H1).
  set (w1 := SetFormatting Default true w) in *.
  set (w2 := zerolog_SetGlobalLevel InfoLevel w1).
  destruct (WithLevel_Msg_frame (_logger w2) InfoLevel None msg w2)
    as [C3 _].
  set (w3 := WithLevel_Msg (_logger w2) InfoLevel None msg w2) in *.
  apply config_inv in C3 as (L3 & _ & _ & _ & _ & H3).
  assert (A3 : Forall (fun a : loc => a < length (heap w3))
                 (writers (_logger w3))).
  { rewrite L3. change (_logger w2) with (_logger w1). rewrite L1. simpl.
    assert (Hlen : length (heap w3) = length (heap w)).
    { rewrite <- (length_map formatting (heap w3)), H3, length_map.
      change (heap w2) with (heap w1). rewrite H1.
      apply length_alter_all. }
    now rewrite Hlen. }
  apply (synced_frame (SetFormatting (format (_logger w))
                         (noColor (_logger w)) w3));
    try reflexivity.
  now apply synced_SetFormatting.
Qed.

Lemma sound_invariant (w : World) :
  sound w ->
  synced w /\ writers (_logger w) <> [] /\ level (_logger w) = DebugLevel.
Proof.
  induction 1 as [g t | w op Hsound (Hs & Hw & Hl) _ Hargs].
  - split; [| split; [discriminate | reflexivity]].
    unfold synced. simpl. repeat constructor.
  - pose proof (synced_allocated w Hs) as Ha.
    destruct op as [| | lvl msg err v | msg | e msg | fmt v | msg | f
                   | f nc ws | f nc | l | a | a | old new | f nc | f nc
                   | b | t];
      cbn [step op_writers] in *.
    + (* Hold *) split; [| split]; assumption.
    + (* Flush *)
      destruct (Flush_frame w) as (Fl & _ & _ & _ & _ & Fh & _).
      rewrite Fl. split; [| split; assumption].
      apply (synced_frame w); try assumption; now rewrite Fl.
    + (* log *)
      unfold log. destruct (hold (_logger w)).
      * split; [| split]; assumption.
      * destruct (WithLevel_Msg_frame (_logger w) lvl err
                    (match v with [] => msg | _ :: _ => Sprintf msg v end) w)
          as [Hc _].
        apply config_inv in Hc as (Fl & _ & _ & _ & _ & Fh).
        rewrite Fl. split; [| split; assumption].
        apply (synced_frame w); try assumption; now rewrite Fl.
    + (* Fatal *)
      destruct (synced_exit None msg w) as [Fl Fh]. unfold Fatal.
      rewrite Fl. split; [| split; assumption].
      apply (synced_frame w); try assumption; now rewrite Fl.
    + (* FatalE *)
      destruct (synced_exit e msg w) as [Fl Fh]. unfold FatalE.
      rewrite Fl. split; [| split; assumption].
      apply (synced_frame w); try assumption; now rewrite Fl.
    + (* Fatalf *)
      destruct (synced_exit None (Sprintf fmt v) w) as [Fl Fh].
      unfold Fatalf.
      rewrite Fl. split; [| split; assumption].
      apply (synced_frame w); try assumption; now rewrite Fl.
    + (* Bypass *)
      destruct (Bypass_frame msg w) as (Fl & _).
      split; [now apply synced_Bypass |]. rewrite Fl. now split.
    + (* InitLogger *)
      apply synced_InitLoggerWithWriter. constructor.
    + (* InitLoggerWithWriter *)
      now apply synced_InitLoggerWithWriter.
    + (* SetFormatting *)
      destruct (SetFormatting_frame f nc w) as (Fl & _).
      split; [now apply synced_SetFormatting |]. rewrite Fl. now split.
    + (* SetGlobalLevel *) split; [| split]; assumption.
    + (* AppendWriter *)
      apply synced_InitLoggerWithWriter.
      apply Forall_app. split; assumption.
    + (* RemoveWriter *)
      unfold RemoveWriter. destruct (0 <=? getWriterIndex a w)%Z.
      * apply synced_InitLoggerWithWriter.
        apply Forall_app. split; [now apply Forall_take | now apply Forall_drop].
      * split; [| split]; assumption.
    + (* UpdateWriter *)
      unfold UpdateWriter.
      destruct ((getWriterIndex old w <? 0)%Z ||
                (Z.of_nat (length (writers (_logger w)))
                 <=? getWriterIndex old w)%Z).
      * split; [| split]; assumption.
      * simpl. apply synced_InitLoggerWithWriter.
        apply Forall_insert; [assumption |].
        inversion Hargs as [| ? ? _ Hnew]. now inversion Hnew.
    + (* NewConsoleWriter *)
      split; [| split; assumption].
      apply (synced_alloc (CW (NewConsoleWriter f nc Stdout)) w Hs).
    + (* NewBufferedWriter *)
      split; [| split; assumption].
      apply (synced_alloc (BW (NewBufferedWriter f nc)) w Hs).
    + (* _suppressExit *) split; [| split]; assumption.
    + (* clock *) split; [| split]; assumption.
Qed.

(** One call, from any state whose sinks are in step with the logger. *)
Lemma step_synced (op : Op) (w : World) :
  synced w -> writers (_logger w) <> [] ->
  Forall (fun a : loc => a < length (heap w)) (op_writers op) ->
  synced (step op w) /\ writers (_logger (step op w)) <> [].
Proof.
  intros Hs Hw Hargs.
  pose proof (synced_allocated w Hs) as Ha.
  assert (forall f nc ws,
             Forall (fun a : loc => a < length (heap w)) ws ->
             synced (InitLoggerWithWriter f nc ws w) /\
             writers (_logger (InitLoggerWithWriter f nc ws w)) <> [])
    as Hinit.
  { intros f nc ws Hws.
    destruct (synced_InitLoggerWithWriter f nc ws w Hws) as (A & B & _).
    now split. }
  destruct op as [| | lvl msg err v | msg | e msg | fmt v | msg | f
                 | f nc ws | f nc | l | a | a | old new | f nc | f nc
                 | b | t];
    cbn [step op_writers] in *.
  - (* Hold *) split; assumption.
  - (* Flush *)
    destruct (Flush_frame w) as (Fl & _ & _ & _ & _ & Fh & _).
    rewrite Fl. split; [| assumption].
    apply (synced_frame w); try assumption; now rewrite Fl.
  - (* log *)
    unfold log. destruct (hold (_logger w)).
    + split; assumption.
    + destruct (WithLevel_Msg_frame (_logger w) lvl err
                  (match v with [] => msg | _ :: _ => Sprintf msg v end) w)
        as [Hc _].
      apply config_inv in Hc as (Fl & _ & _ & _ & _ & Fh).
      rewrite Fl. split; [| assumption].
      apply (synced_frame w); try assumption; now rewrite Fl.
  - (* Fatal *)
    destruct (synced_exit None msg w) as [Fl Fh]. unfold Fatal.
    rewrite Fl. split; [| assumption].
    apply (synced_frame w); try assumption; now rewrite Fl.
  - (* FatalE *)
    destruct (synced_exit e msg w) as [Fl Fh]. unfold FatalE.
    rewrite Fl. split; [| assumption].
    apply (synced_frame w); try assumption; now rewrite Fl.
  - (* Fatalf *)
    destruct (synced_exit None (Sprintf fmt v) w) as [Fl Fh].
    unfold Fatalf.
    rewrite Fl. split; [| assumption].
    apply (synced_frame w); try assumption; now rewrite Fl.
  - (* Bypass *)
    destruct (Bypass_frame msg w) as (Fl & _).
    split; [now apply synced_Bypass |]. now rewrite Fl.
  - (* InitLogger *)
    apply Hinit. constructor.
  - (* InitLoggerWithWriter *)
    now apply Hinit.
  - (* SetFormatting *)
    destruct (SetFormatting_frame f nc w) as (Fl & _).
    split; [now apply synced_SetFormatting |]. now rewrite Fl.
  - (* SetGlobalLevel *) split; assumption.
  - (* AppendWriter *)
    apply Hinit. apply Forall_app. split; assumption.
  - (* RemoveWriter *)
    unfold RemoveWriter. destruct (0 <=? getWriterIndex a w)%Z.
    + apply Hinit.
      apply Forall_app. split; [now apply Forall_take | now apply Forall_drop].
    + split; assumption.
  - (* UpdateWriter *)
    unfold UpdateWriter.
    destruct ((getWriterIndex old w <? 0)%Z ||
              (Z.of_nat (length (writers (_logger w)))
               <=? getWriterIndex old w)%Z).
    + split; assumption.
    + simpl. apply Hinit.
      apply Forall_insert; [assumption |].
      inversion Hargs as [| ? ? _ Hnew]. now inversion Hnew.
  - (* NewConsoleWriter *)
    split; [| assumption].
    apply (synced_alloc (CW (NewConsoleWriter f nc Stdout)) w Hs).
  - (* NewBufferedWriter *)
    split; [| assumption].
    apply (synced_alloc (BW (NewBufferedWriter f nc)) w Hs).
  - (* _suppressExit *) split; assumption.
  - (* clock *) split; assumption.
Qed.

End SoundStates.

(** X17. Each call on the global logger keeps the sinks in step with it.
    Take a state in which the logger has at least one sink and every sink
    has the format and the color flag of the logger, and any one of these
    calls: [Hold], [Flush], a leveled or fatal logging call, [Bypass],
    [InitLogger], [InitLoggerWithWriter], [SetFormatting],
    [SetGlobalLevel], [AppendWriter], [RemoveWriter], [UpdateWriter], the
    creation of a console or buffering writer; the writers the call is
    given exist. After the call the logger still has at least one sink,
    every sink exists, and every sink has the format and the color flag
    the logger has then. *)
Theorem calls_keep_sinks_in_step {E : Env} {C : Console} (op : Op)
    (w : World) :
  synced w -> writers (_logger w) <> [] ->
  Forall (fun a : loc => a < length (heap w)) (op_writers op) ->
  writers (_logger (step op w)) <> []
  /\ Forall (fun a : loc =>
               exists o : WriterObj,
                 heap (step op w) !! a = Some o /\
                 formatting o = (format (_logger (step op w)),
                                 noColor (_logger (step op w))))
            (writers (_logger (step op w))).
Proof.
  intros Hs Hw Hargs. destruct (step_synced op w Hs Hw Hargs) as [Hs' Hw'].
  split; [exact Hw' |].
  unfold synced in Hs'. eapply Forall_impl; [exact Hs' |].
  intros a Ha. simpl in Ha.
  change (map formatting) with (fmap (M := list) formatting) in Ha.
  rewrite list_lookup_fmap in Ha.
  destruct (heap (step op w) !! a) as [o |]; [| discriminate].
  exists o. split; [reflexivity |]. now injection Ha.
Qed.

Lemma calls_keep_sinks_in_step_witness :
  synced (start InfoLevel 0%Z)
  /\ writers (_logger (start InfoLevel 0%Z)) <> []
  /\ Forall (fun a : loc => a < length (heap (start InfoLevel 0%Z)))
       (op_writers (OpSetFormatting Pretty true))
  /\ writers (_logger (step (E := spec_env) (C := brace_console)
                         (OpSetFormatting Pretty true)
                         (start InfoLevel 0%Z))) <> [].
Proof.
  assert (H1 : synced (start InfoLevel 0%Z)).
  { unfold synced. simpl. repeat constructor. }
  assert (H2 : writers (_logger (start InfoLevel 0%Z)) <> [])
    by discriminate.
  assert (H3 : Forall (fun a : loc => a < length (heap (start InfoLevel 0%Z)))
                 (op_writers (OpSetFormatting Pretty true)))
    by constructor.
  split; [exact H1 |]. split; [exact H2 |]. split; [exact H3 |].
  apply (calls_keep_sinks_in_step (E := spec_env) (C := brace_console)
           (OpSetFormatting Pretty true) (start InfoLevel 0%Z) H1 H2 H3).
Defined.

(** X18. The level of the logger itself is never set: in every such state
    it is the zero value, [DebugLevel], so [Logger.Write] on the global
    logger emits its lines at the debug level; when the backend filters
    debug records out, a write reaches no sink and still reports its full
    length and no error. *)
Theorem Logger_Write_at_debug {E : Env} {C : Console} (w : World)
    (p : string) :
  sound w ->
  level (_logger w) = DebugLevel
  /\ snd (Logger_Write (_logger w) p w) = (len p, None)
  /\ sunk (fst (Logger_Write (_logger w) p w)) =
       sunk w ++
       flat_map (fun line : string =>
                   fanout w (_logger w) DebugLevel None line)
         (List.filter (fun line : string =>
                         negb (line =? "") || (gLevel w =? 0)%Z)
                      (Split p newline))
  /\ (if should (gLevel w) DebugLevel then True
      else sunk (fst (Logger_Write (_logger w) p w)) = sunk w).
Proof.
  intros H. destruct (sound_invariant w H) as (_ & _ & Hl).
  destruct (Logger_Write_frame (_logger w) p w) as (Hr & _ & Hs).
  rewrite Hl in Hs.
  split; [exact Hl |]. split; [exact Hr |]. split; [exact Hs |].
  destruct (should (gLevel w) DebugLevel) eqn:K; [exact I |].
  rewrite Hs. unfold fanout. rewrite K, flat_map_nil. apply app_nil_r.
Qed.

Lemma Logger_Write_at_debug_witness :
  sound (E := spec_env) (C := brace_console) (start InfoLevel 0%Z)
  /\ sunk (fst (Logger_Write (E := spec_env) (C := brace_console)
                  (_logger (start InfoLevel 0%Z)) "lost"
                  (start InfoLevel 0%Z))) = [].
Proof.
  assert (H : sound (E := spec_env) (C := brace_console)
                (start InfoLevel 0%Z)) by apply sound_start.
  split; [exact H |].
  exact (proj2 (proj2 (proj2
    (Logger_Write_at_debug (E := spec_env) (C := brace_console)
       (start InfoLevel 0%Z) "lost" H)))).
Defined.

(** ** Reinitialising, and emitting into a buffered writer *)

(** X19. [InitLoggerWithWriter] builds the new logger from [NewLogger] and
    the old queue: given no sink it creates exactly one console writer on
    the standard output with the format and color flag, given sinks it
    adopts them in their order and creates none; the new logger has the
    format and color flag, an unset level and a cleared hold flag; nothing
    is emitted and the global level stays. *)
Theorem InitLoggerWithWriter_adopts (f : Format) (nc : bool) (ws : list loc)
    (w : World) :
  let w' := InitLoggerWithWriter f nc ws w in
  format (_logger w') = f /\ noColor (_logger w') = nc
  /\ level (_logger w') = 0%Z /\ hold (_logger w') = false
  /\ buffer (_logger w') = buffer (_logger w)
  /\ sunk w' = sunk w /\ stdout w' = stdout w /\ gLevel w' = gLevel w
  /\ match ws with
     | [] => writers (_logger w') = [length (heap w)] /\
             heap w' = heap w ++ [CW (NewConsoleWriter f nc Stdout)]
     | _ :: _ => writers (_logger w') = ws /\
                 length (heap w') = length (heap w)
     end.
Proof.
  pose proof (InitLoggerWithWriter_effect f nc ws w) as F. cbv zeta in *.
  destruct F as (Ff & Fn & Fl & Fh & Fb & Fs & Fo & Fg & _ & _ & _ & Fw).
  repeat (split; [assumption |]).
  destruct ws as [| a ws]; [exact Fw |].
  destruct Fw as [Fw Fheap]. split; [exact Fw |].
  rewrite Fheap. apply length_alter_all.
Qed.

(** X20. A leveled call made while the logger does not hold, on a logger
    whose only sink is a buffered writer in the JSON format, appends to the
    buffer of that writer the lines captured from the encoded record when
    the level passes the backend's filter, and leaves the buffer as it is
    when the level does not pass. *)
Theorem live_call_reaches_buffer {E : Env} {C : Console} (level : Level)
    (msg : string) (err : option error) (v : list Arg) (w : World)
    (a : loc) (bw : BufferedWriter) (b : Buffer) :
  hold (_logger w) = false ->
  writers (_logger w) = [a] ->
  heap w !! a = Some (BW bw) ->
  output (bw_writer bw) = Mem b ->
  writer (bw_writer bw) = Passthrough ->
  let m := match v with [] => msg | _ :: _ => Sprintf msg v end in
  exists bw' : BufferedWriter,
    heap (log level msg err v w) !! a = Some (BW bw')
    /\ BufferedWriter_Buffer bw'
       = b ++ (if should (gLevel w) level
               then captured (format (_logger w))
                      (encode level (clock w) m err)
               else []).
Proof.
  intros Hh Hw Ha Ho Hp. cbv zeta.
  rewrite (log_live level msg err v w Hh). unfold WithLevel_Msg.
  destruct (should (gLevel w) level).
  - rewrite Hw. simpl. unfold sink_write, Writer_Write. rewrite Ha.
    unfold BufferedWriter_Write, ConsoleWriter_Write. rewrite Hp, Ho.
    unfold Output_Write. rewrite Buffer_Write_eq. simpl.
    eexists. split.
    + apply list_lookup_insert_eq. now apply lookup_lt_Some in Ha.
    + reflexivity.
  - exists bw. split; [exact Ha |].
    unfold BufferedWriter_Buffer. now rewrite Ho, app_nil_r.
Qed.

Lemma live_call_reaches_buffer_witness :
  hold (_logger
     (run (E := spec_env) (C := brace_console)
        [OpNewBufferedWriter JSON false;
         OpInitLoggerWithWriter JSON true [1]]
        (start InfoLevel 0%Z))) = false
  /\ writers (_logger
     (run (E := spec_env) (C := brace_console)
        [OpNewBufferedWriter JSON false;
         OpInitLoggerWithWriter JSON true [1]]
        (start InfoLevel 0%Z))) = [1]
  /\ heap
     (run (E := spec_env) (C := brace_console)
        [OpNewBufferedWriter JSON false;
         OpInitLoggerWithWriter JSON true [1]]
        (start InfoLevel 0%Z)) !! 1
     = Some (BW (NewBufferedWriter JSON true))
  /\ output (bw_writer (NewBufferedWriter JSON true)) = Mem []
  /\ writer (bw_writer (NewBufferedWriter JSON true)) = Passthrough
  /\ exists bw' : BufferedWriter,
       heap (log (E := spec_env) (C := brace_console) WarnLevel "w" None []
     (run (E := spec_env) (C := brace_console)
        [OpNewBufferedWriter JSON false;
         OpInitLoggerWithWriter JSON true [1]]
        (start InfoLevel 0%Z))) !! 1 = Some (BW bw')
       /\ length (BufferedWriter_Buffer bw') = 1.
Proof.
  repeat (split; [reflexivity |]).
  destruct (live_call_reaches_buffer (E := spec_env) (C := brace_console)
              WarnLevel "w" None []
              (run (E := spec_env) (C := brace_console)
                 [OpNewBufferedWriter JSON false;
                  OpInitLoggerWithWriter JSON true [1]]
                 (start InfoLevel 0%Z))
              1 (NewBufferedWriter JSON true) []
              eq_refl eq_refl eq_refl eq_refl eq_refl)
    as (bw' & H1 & H2).
  exists bw'. split; [exact H1 |]. rewrite H2. reflexivity.
Defined.

(** X21. What [Bypass] leaves on the writers. Every sink of the logger
    that exists ends with the format and the color flag of the logger, and
    every other writer keeps its own. So when the sinks had the settings of
    the logger before the call, every writer has after it the settings it
    had before; a sink that had been given other settings directly, behind
    the logger's back, does not get them back: on the first logger, whose
    console sink was switched to [Pretty] without colors by a call of the
    writer's own [SetFormatting], [Bypass] leaves that sink at [Default]
    with colors, the settings of the logger. *)
Theorem Bypass_sinks {E : Env} {C : Console} (msg : string) (w : World) :
  (forall a : loc,
      map formatting (heap (Bypass msg w)) !! a =
      if bool_decide (a ∈ writers (_logger w))
      then (fun _ : Format * bool =>
              (format (_logger w), noColor (_logger w)))
             <$> map formatting (heap w) !! a
      else map formatting (heap w) !! a)
  /\ (synced w ->
      map formatting (heap (Bypass msg w)) = map formatting (heap w))
  /\ map formatting
       (heap (Writer_SetFormatting Pretty true (start InfoLevel 0%Z) 0))
     = [(Pretty, true)]
  /\ map formatting
       (heap (Bypass (E := spec_env) (C := brace_console) "Direct message"
                (Writer_SetFormatting Pretty true (start InfoLevel 0%Z) 0)))
     = [(Default, false)].
Proof.
  assert (forall a : loc,
      map formatting (heap (Bypass msg w)) !! a =
      if bool_decide (a ∈ writers (_logger w))
      then (fun _ : Format * bool =>
              (format (_logger w), noColor (_logger w)))
             <$> map formatting (heap w) !! a
      else map formatting (heap w) !! a) as Hall.
  { intros a. unfold Bypass. cbv zeta.
    destruct (SetFormatting_frame Default true w)
      as (L1 & _ & _ & _ & _ & _ & _ & H1).
    set (w1 := SetFormatting Default true w) in *.
    set (w2 := zerolog_SetGlobalLevel InfoLevel w1).
    destruct (WithLevel_Msg_frame (_logger w2) InfoLevel None msg w2)
      as [C3 _].
    set (w3 := WithLevel_Msg (_logger w2) InfoLevel None msg w2) in *.
    apply config_inv in C3 as (L3 & _ & _ & _ & _ & H3).
    change (heap w2) with (heap w1) in H3.
    change (_logger w2) with (_logger w1) in L3.
    change (heap (zerolog_SetGlobalLevel (gLevel w)
                    (SetFormatting (format (_logger w)) (noColor (_logger w))
                       w3)))
      with (heap (SetFormatting (format (_logger w)) (noColor (_logger w))
                    w3)).
    rewrite SetFormatting_eq. cbn [heap with_heap].
    rewrite formats_after_SetFormatting, L3, L1.
    cbn [writers with_formatting].
    rewrite H3, H1, formats_after_SetFormatting.
    destruct (bool_decide (a ∈ writers (_logger w))); [| reflexivity].
    destruct (map formatting (heap w) !! a); reflexivity. }
  split; [exact Hall |]. split.
  - intros Hs. apply list_eq. intros a. rewrite Hall.
    destruct (bool_decide (a ∈ writers (_logger w))) eqn:K; [| reflexivity].
    apply bool_decide_eq_true_1 in K.
    unfold synced in Hs. rewrite Forall_forall in Hs. rewrite (Hs a K).
    reflexivity.
  - split; reflexivity.
Qed.
